(** * home-calc: the amortization engine of [src/utils/mortgageCalculations.ts]

    A shallow embedding of the mortgage calculator's numeric core and the
    theorems that relate it to its specification.

    Numbers.  The source computes with JavaScript [number]s, that is in
    binary64 floating point.  The functions are embedded twice.

    - Modules [Mortgage], [Earlier], [HomePage] and [RefinancePage] read a
      [number] as an exact rational ([Q], compared with [==]): [Math.pow]
      with an integral exponent is the exact power, and [Math.round] and
      [Math.ceil] are the exact rounding functions.  The general theorems are
      proved over this reading, and they are stated so as not to turn on the
      rounding of an intermediate result: they equate fields that the code
      computes by one and the same expression, compare quantities, or bound
      them with a margin of a cent.  What holds in exact arithmetic only --
      a final balance of exactly zero, a payment that repays the principal
      to the last digit -- is not stated of the code.

    - Module [Binary64] reads a [number] as a primitive float and repeats
      the payment formula and the two schedule generators operation by
      operation.  It runs the code on the concrete inputs where binary64
      rounding decides the outcome.

    Loan terms.  [loanTermYears] is a [Z]: every statement below is about a
    whole number of years, and the number of payments [loanTermYears * 12]
    is a [Z] as well.

    Clock.  [new Date()] reads the wall clock.  The reading is made an
    explicit argument ([now]) of every function that performs it.  A date is
    a civil date with a time of day, and the host's time zone is taken to be
    UTC; no general statement below depends on how the date column is
    computed. *)

From Stdlib Require Import ZArith QArith Qround Qabs Qpower Qfield Lqa Lia.
From Stdlib Require Import List Sorted Bool String Ascii.
From Stdlib Require Floats.
Import ListNotations.

Local Open Scope Q_scope.

(** ** JavaScript numbers and [Math] *)

Module Js.

(** [x < y] on numbers. *)
Definition ltb (x y : Q) : bool :=
  (Qnum x * QDen y <? Qnum y * QDen x)%Z.

(** [x > y] is [y < x]. *)
Definition gtb (x y : Q) : bool := ltb y x.

(** [x === y] on numbers. *)
Definition eqb (x y : Q) : bool := Qeq_bool x y.

(** [Math.round]: the nearest integer, ties towards plus infinity. *)
Definition Math_round (x : Q) : Q := inject_Z (Qfloor (x + (1 # 2))).

(** [Math.ceil]. *)
Definition Math_ceil (x : Q) : Q := inject_Z (Qceiling x).

(** [Math.pow] at an integral exponent. *)
Definition Math_pow (x : Q) (n : Z) : Q := x ^ n.

(** [Math.max] and [Math.min] of two numbers. *)
Definition Math_max (x y : Q) : Q := if ltb x y then y else x.
Definition Math_min (x y : Q) : Q := if ltb y x then y else x.

(** The idiom [Math.round(x * 100) / 100] used at every emission. *)
Definition round2 (x : Q) : Q := Math_round (x * 100) / 100.

(** [a.reduce((sum, p) => sum + f(p), 0)]. *)
Definition reduce_sum {A : Type} (f : A -> Q) (a : list A) : Q :=
  fold_left (fun sum p => sum + f p) a 0.

(** [a.map((x, index) => f(x, index))]. *)
Fixpoint map_from {A B : Type} (f : A -> Z -> B) (index : Z) (a : list A)
    : list B :=
  match a with
  | [] => []
  | x :: a' => f x index :: map_from f (index + 1) a'
  end.

Definition Array_map {A B : Type} (f : A -> Z -> B) (a : list A) : list B :=
  map_from f 0 a.

(** [a.filter((x, index) => f(x, index))]. *)
Fixpoint filter_from {A : Type} (f : A -> Z -> bool) (index : Z) (a : list A)
    : list A :=
  match a with
  | [] => []
  | x :: a' =>
      if f x index then x :: filter_from f (index + 1) a'
      else filter_from f (index + 1) a'
  end.

Definition Array_filter {A : Type} (f : A -> Z -> bool) (a : list A) : list A :=
  filter_from f 0 a.

End Js.

(** ** [Date], as far as the schedule uses it *)

Module JsDate.

Local Open Scope Z_scope.

(** A time value, broken down in UTC: [month] is 0-based as in
    [getMonth], [date] is the day of the month as in [getDate], and
    [msOfDay] is the time within the day in milliseconds. *)
Record Date : Type := mkDate
  { fullYear : Z; month : Z; date : Z; msOfDay : Z }.

Definition isLeapYear (y : Z) : bool :=
  (y mod 4 =? 0) && (negb (y mod 100 =? 0) || (y mod 400 =? 0)).

Definition daysInMonth (y m : Z) : Z :=
  if m =? 1 then (if isLeapYear y then 29 else 28)
  else if (m =? 3) || (m =? 5) || (m =? 8) || (m =? 10) then 30
  else 31.

(** [d.setMonth(m)]: ECMAScript's [MakeDay (YearFromTime t) m (DateFromTime t)].
    The month is normalised into the year, and a day of the month past the
    end of the target month runs over into the following month (31 January
    plus one month is 2 or 3 March). *)
Definition setMonth (d : Date) (m : Z) : Date :=
  let ym := fullYear d + m / 12 in
  let mn := m mod 12 in
  let dim := daysInMonth ym mn in
  if date d <=? dim then mkDate ym mn (date d) (msOfDay d)
  else
    let ym' := if mn =? 11 then ym + 1 else ym in
    let mn' := if mn =? 11 then 0 else mn + 1 in
    mkDate ym' mn' (date d - dim) (msOfDay d).

(** Fixed-width decimal rendering with leading zeros. *)
Fixpoint digits (width : nat) (n : Z) : string :=
  match width with
  | O => EmptyString
  | S w =>
      (digits w (n / 10) ++
       String (ascii_of_nat (48 + Z.to_nat (n mod 10))) EmptyString)%string
  end.

(** The year of an ISO string: four digits, or the expanded six-digit
    signed form outside 0..9999. *)
Definition isoYear (y : Z) : string :=
  if (0 <=? y) && (y <=? 9999) then digits 4 y
  else if y <? 0 then ("-" ++ digits 6 (- y))%string
  else ("+" ++ digits 6 y)%string.

(** [d.toISOString()]: [YYYY-MM-DDTHH:mm:ss.sssZ]. *)
Definition toISOString (d : Date) : string :=
  (isoYear (fullYear d) ++ "-" ++ digits 2 (month d + 1) ++ "-" ++
   digits 2 (date d) ++ "T" ++
   digits 2 (msOfDay d / 3600000) ++ ":" ++
   digits 2 ((msOfDay d / 60000) mod 60) ++ ":" ++
   digits 2 ((msOfDay d / 1000) mod 60) ++ "." ++
   digits 3 (msOfDay d mod 1000) ++ "Z")%string.

(** [s.split('T')[0]]: the part of [s] before its first ['T']. *)
Fixpoint split_T_0 (s : string) : string :=
  match s with
  | EmptyString => EmptyString
  | String c s' =>
      if Ascii.eqb c "T"%char then EmptyString else String c (split_T_0 s')
  end.

End JsDate.

(** ** The data model of [mortgageCalculations.ts] *)

Module MortgageInputs.
Record t : Type := mk
  { loanAmount : Q;
    interestRate : Q;
    loanTermYears : Z;
    propertyTax : option Q;
    homeInsurance : option Q;
    pmi : option Q;
    hoaFees : option Q }.

(** The object literal [{ loanAmount, interestRate, loanTermYears }]. *)
Definition loan (loanAmount interestRate : Q) (loanTermYears : Z) : t :=
  mk loanAmount interestRate loanTermYears None None None None.
End MortgageInputs.

Module PaymentScheduleItem.
Record t : Type := mk
  { paymentNumber : Z;
    paymentDate : string;
    principalPayment : Q;
    interestPayment : Q;
    totalPayment : Q;
    remainingBalance : Q;
    cumulativeInterest : Q }.
End PaymentScheduleItem.

Module ChartDataPoint.
Record t : Type := mk
  { month : Z;
    principal : Q;
    interest : Q;
    balance : Q }.
End ChartDataPoint.

Module MortgageResults.
Record t : Type := mk
  { monthlyPayment : Q;
    monthlyPrincipalAndInterest : Q;
    totalInterest : Q;
    totalPayments : Q;
    paymentSchedule : list PaymentScheduleItem.t }.
End MortgageResults.

Module MortgageWithExtrasResults.
Record t : Type := mk
  { monthlyPayment : Q;
    totalInterest : Q;
    totalPayments : Q;
    paymentSchedule : list PaymentScheduleItem.t;
    timeSavedMonths : Z;
    interestSaved : Q;
    payoffDate : string }.
End MortgageWithExtrasResults.

Module RefinanceInputs.
Record t : Type := mk
  { currentLoanAmount : Q;
    currentInterestRate : Q;
    currentRemainingYears : Z;
    currentMonthsRemaining : Z;
    newLoanAmount : Q;
    newInterestRate : Q;
    newLoanTermYears : Z;
    closingCosts : Q;
    cashOut : Q;
    extraMonthlyPayment : Q;
    annualExtraPayment : Q;
    enableAnnualPayment : bool }.
End RefinanceInputs.

Module RefinanceResults.
Record t : Type := mk
  { currentMortgage : MortgageResults.t;
    newMortgage : MortgageResults.t;
    newMortgageWithExtras : MortgageResults.t;
    monthlySavings : Q;
    totalInterestSavings : Q;
    totalSavings : Q;
    breakEvenMonths : Q;
    payoffTimeSaved : Z }.
End RefinanceResults.

(** ** The functions of [mortgageCalculations.ts]

    The file declares [calculateMortgageWithExtras],
    [calculateRefinanceComparison] and [validateRefinanceInputs] twice; the
    later declaration of a name is the one in force, and it is the one
    embedded here. *)

Module Mortgage.

Import JsDate.
Import Js.

(** [calculateMonthlyPayment], lines 78-95. *)
Definition calculateMonthlyPayment
    (loanAmount annualInterestRate : Q) (loanTermYears : Z) : Q :=
  if eqb annualInterestRate 0 then
    loanAmount / inject_Z (loanTermYears * 12)
  else
    let monthlyInterestRate := annualInterestRate / 100 / 12 in
    let numberOfPayments := (loanTermYears * 12)%Z in
    let monthlyPayment :=
      loanAmount *
      (monthlyInterestRate * Math_pow (1 + monthlyInterestRate) numberOfPayments) /
      (Math_pow (1 + monthlyInterestRate) numberOfPayments - 1) in
    monthlyPayment.

(** The date column of a schedule row:
    [paymentDate = new Date(startDate); paymentDate.setMonth(paymentDate.getMonth() + i);
     paymentDate.toISOString().split('T')[0]]. *)
Definition paymentDateOf (startDate : Date) (i : Z) : string :=
  let paymentDate := startDate in
  let paymentDate := setMonth paymentDate (month paymentDate + i) in
  split_T_0 (toISOString paymentDate).

(** The row pushed by the schedule loops: every monetary field goes
    through [Math.round(x * 100) / 100]. *)
Definition pushed (startDate : Date) (paymentNumber : Z)
    (principalPayment interestPayment totalPayment
     remainingBalance cumulativeInterest : Q) : PaymentScheduleItem.t :=
  PaymentScheduleItem.mk
    paymentNumber
    (paymentDateOf startDate paymentNumber)
    (round2 principalPayment)
    (round2 interestPayment)
    (round2 totalPayment)
    (round2 remainingBalance)
    (round2 cumulativeInterest).

(** The [for] loop of [generatePaymentSchedule], lines 142-165.  [fuel]
    bounds the number of iterations; the loop condition is tested on every
    iteration as in the source. *)
Fixpoint paymentLoop (startDate : Date)
    (monthlyInterestRate monthlyPayment : Q) (numberOfPayments : Z)
    (fuel : nat) (i : Z) (remainingBalance cumulativeInterest : Q)
    : list PaymentScheduleItem.t :=
  match fuel with
  | O => []
  | S fuel' =>
      if (i <=? numberOfPayments)%Z then
        let interestPayment := remainingBalance * monthlyInterestRate in
        let principalPayment := monthlyPayment - interestPayment in
        let remainingBalance := remainingBalance - principalPayment in
        let cumulativeInterest := cumulativeInterest + interestPayment in
        let remainingBalance :=
          if ltb remainingBalance 0.01 then 0 else remainingBalance in
        pushed startDate i principalPayment interestPayment monthlyPayment
               remainingBalance cumulativeInterest
        :: paymentLoop startDate monthlyInterestRate monthlyPayment
             numberOfPayments fuel' (i + 1) remainingBalance cumulativeInterest
      else []
  end.

(** [generatePaymentSchedule], lines 127-168.  The loop runs [i] from 1
    to [numberOfPayments], so [numberOfPayments] iterations exhaust it. *)
Definition generatePaymentSchedule (now : Date)
    (loanAmount annualInterestRate : Q) (loanTermYears : Z) : list PaymentScheduleItem.t :=
  let monthlyInterestRate := annualInterestRate / 100 / 12 in
  let numberOfPayments := (loanTermYears * 12)%Z in
  let monthlyPayment :=
    calculateMonthlyPayment loanAmount annualInterestRate loanTermYears in
  let startDate := now in
  paymentLoop startDate monthlyInterestRate monthlyPayment numberOfPayments
    (Z.to_nat numberOfPayments) 1 loanAmount 0.

Definition orZero (x : option Q) : Q :=
  match x with Some v => v | None => 0 end.

(** [calculateMortgageDetails], lines 100-122. *)
Definition calculateMortgageDetails (now : Date) (inputs : MortgageInputs.t)
    : MortgageResults.t :=
  let loanAmount := MortgageInputs.loanAmount inputs in
  let interestRate := MortgageInputs.interestRate inputs in
  let loanTermYears := MortgageInputs.loanTermYears inputs in
  let propertyTax := orZero (MortgageInputs.propertyTax inputs) in
  let homeInsurance := orZero (MortgageInputs.homeInsurance inputs) in
  let pmi := orZero (MortgageInputs.pmi inputs) in
  let hoaFees := orZero (MortgageInputs.hoaFees inputs) in
  let monthlyPrincipalAndInterest :=
    calculateMonthlyPayment loanAmount interestRate loanTermYears in
  let monthlyPropertyTax := propertyTax / 12 in
  let monthlyInsurance := homeInsurance / 12 in
  let monthlyPMI := pmi / 12 in
  let monthlyHOA := hoaFees / 12 in
  let monthlyPayment :=
    monthlyPrincipalAndInterest + monthlyPropertyTax + monthlyInsurance +
    monthlyPMI + monthlyHOA in
  let paymentSchedule :=
    generatePaymentSchedule now loanAmount interestRate loanTermYears in
  let totalInterest :=
    reduce_sum PaymentScheduleItem.interestPayment paymentSchedule in
  let totalPayments := monthlyPayment * inject_Z loanTermYears * 12 in
  MortgageResults.mk monthlyPayment monthlyPrincipalAndInterest
    totalInterest totalPayments paymentSchedule.

(** The lump-sum condition of line 510:
    [enableAnnualPayment && annualExtraPayment > 0 &&
     paymentNumber % 12 === 1 && paymentNumber > 1]. *)
Definition lumpSumDue (enableAnnualPayment : bool) (annualExtraPayment : Q)
    (paymentNumber : Z) : bool :=
  enableAnnualPayment && gtb annualExtraPayment 0 &&
  (Z.rem paymentNumber 12 =? 1)%Z && (paymentNumber >? 1)%Z.

(** The [while] loop of [generateScheduleWithExtras], lines 498-538. *)
Fixpoint extrasLoop (startDate : Date)
    (monthlyInterestRate baseMonthlyPayment : Q) (numberOfPayments : Z)
    (extraMonthlyPayment annualExtraPayment : Q) (enableAnnualPayment : bool)
    (fuel : nat) (paymentNumber : Z) (remainingBalance cumulativeInterest : Q)
    : list PaymentScheduleItem.t :=
  match fuel with
  | O => []
  | S fuel' =>
      if gtb remainingBalance 0.01 &&
         (paymentNumber <=? numberOfPayments * 2)%Z then
        let interestPayment := remainingBalance * monthlyInterestRate in
        let principalPayment := baseMonthlyPayment - interestPayment in
        let totalPayment := baseMonthlyPayment in
        let monthly := gtb extraMonthlyPayment 0 in
        let principalPayment :=
          if monthly then principalPayment + extraMonthlyPayment
          else principalPayment in
        let totalPayment :=
          if monthly then totalPayment + extraMonthlyPayment
          else totalPayment in
        let annual :=
          lumpSumDue enableAnnualPayment annualExtraPayment paymentNumber in
        let principalPayment :=
          if annual then principalPayment + annualExtraPayment
          else principalPayment in
        let totalPayment :=
          if annual then totalPayment + annualExtraPayment
          else totalPayment in
        let overpay := gtb principalPayment remainingBalance in
        let principalPayment :=
          if overpay then remainingBalance else principalPayment in
        let totalPayment :=
          if overpay then interestPayment + principalPayment
          else totalPayment in
        let remainingBalance := remainingBalance - principalPayment in
        let cumulativeInterest := cumulativeInterest + interestPayment in
        pushed startDate paymentNumber principalPayment interestPayment
               totalPayment remainingBalance cumulativeInterest
        :: extrasLoop startDate monthlyInterestRate baseMonthlyPayment
             numberOfPayments extraMonthlyPayment annualExtraPayment
             enableAnnualPayment fuel' (paymentNumber + 1)
             remainingBalance cumulativeInterest
      else []
  end.

(** [generateScheduleWithExtras], lines 479-541.  [paymentNumber] starts
    at 1 and the loop stops at the latest when it passes
    [numberOfPayments * 2], so that many iterations exhaust it. *)
Definition generateScheduleWithExtras (now : Date)
    (loanAmount annualInterestRate : Q) (loanTermYears : Z)
    (extraMonthlyPayment annualExtraPayment : Q) (enableAnnualPayment : bool)
    : list PaymentScheduleItem.t :=
  let monthlyInterestRate := annualInterestRate / 100 / 12 in
  let numberOfPayments := (loanTermYears * 12)%Z in
  let baseMonthlyPayment :=
    calculateMonthlyPayment loanAmount annualInterestRate loanTermYears in
  let startDate := now in
  extrasLoop startDate monthlyInterestRate baseMonthlyPayment numberOfPayments
    extraMonthlyPayment annualExtraPayment enableAnnualPayment
    (Z.to_nat (numberOfPayments * 2)) 1 loanAmount 0.

(** [calculateMortgageWithExtras], lines 546-586. *)
Definition calculateMortgageWithExtras (now : Date)
    (baseInputs : MortgageInputs.t)
    (extraMonthlyPayment annualExtraPayment : Q) (enableAnnualPayment : bool)
    : MortgageWithExtrasResults.t :=
  let baseMortgage := calculateMortgageDetails now baseInputs in
  let scheduleWithExtras :=
    generateScheduleWithExtras now
      (MortgageInputs.loanAmount baseInputs)
      (MortgageInputs.interestRate baseInputs)
      (MortgageInputs.loanTermYears baseInputs)
      extraMonthlyPayment annualExtraPayment enableAnnualPayment in
  let totalInterest :=
    reduce_sum PaymentScheduleItem.interestPayment scheduleWithExtras in
  let totalPayments :=
    reduce_sum PaymentScheduleItem.totalPayment scheduleWithExtras in
  let baseMonthlyPayment :=
    calculateMonthlyPayment
      (MortgageInputs.loanAmount baseInputs)
      (MortgageInputs.interestRate baseInputs)
      (MortgageInputs.loanTermYears baseInputs) in
  let monthlyPayment := baseMonthlyPayment + extraMonthlyPayment in
  let payoffDate := now in
  let payoffDate :=
    setMonth payoffDate
      (month payoffDate + Z.of_nat (List.length scheduleWithExtras)) in
  let timeSavedMonths :=
    (Z.of_nat (List.length (MortgageResults.paymentSchedule baseMortgage)) -
     Z.of_nat (List.length scheduleWithExtras))%Z in
  let interestSaved :=
    MortgageResults.totalInterest baseMortgage - totalInterest in
  MortgageWithExtrasResults.mk monthlyPayment totalInterest totalPayments
    scheduleWithExtras timeSavedMonths interestSaved
    (split_T_0 (toISOString payoffDate)).

(** [calculateRefinanceComparison], lines 591-650. *)
Definition calculateRefinanceComparison (now : Date)
    (inputs : RefinanceInputs.t) : RefinanceResults.t :=
  let currentMortgageInputs :=
    MortgageInputs.loan
      (RefinanceInputs.currentLoanAmount inputs)
      (RefinanceInputs.currentInterestRate inputs)
      (RefinanceInputs.currentRemainingYears inputs) in
  let currentMortgage := calculateMortgageDetails now currentMortgageInputs in
  let newMortgageInputs :=
    MortgageInputs.loan
      (RefinanceInputs.newLoanAmount inputs + RefinanceInputs.cashOut inputs)
      (RefinanceInputs.newInterestRate inputs)
      (RefinanceInputs.newLoanTermYears inputs) in
  let newMortgage := calculateMortgageDetails now newMortgageInputs in
  let newMortgageWithExtras :=
    calculateMortgageWithExtras now newMortgageInputs
      (RefinanceInputs.extraMonthlyPayment inputs)
      (RefinanceInputs.annualExtraPayment inputs)
      (RefinanceInputs.enableAnnualPayment inputs) in
  let newMortgageWithExtrasFormatted :=
    MortgageResults.mk
      (MortgageWithExtrasResults.monthlyPayment newMortgageWithExtras)
      (MortgageWithExtrasResults.monthlyPayment newMortgageWithExtras)
      (MortgageWithExtrasResults.totalInterest newMortgageWithExtras)
      (MortgageWithExtrasResults.totalPayments newMortgageWithExtras)
      (MortgageWithExtrasResults.paymentSchedule newMortgageWithExtras) in
  let monthlySavings :=
    MortgageResults.monthlyPayment currentMortgage -
    MortgageWithExtrasResults.monthlyPayment newMortgageWithExtras in
  let totalInterestSavings :=
    MortgageResults.totalInterest currentMortgage -
    MortgageWithExtrasResults.totalInterest newMortgageWithExtras in
  let totalSavings :=
    totalInterestSavings - RefinanceInputs.closingCosts inputs in
  let breakEvenMonths :=
    if gtb monthlySavings 0 then
      Math_ceil (RefinanceInputs.closingCosts inputs / monthlySavings)
    else 999 in
  let payoffTimeSaved :=
    (Z.of_nat (List.length (MortgageResults.paymentSchedule currentMortgage)) -
     Z.of_nat
       (List.length (MortgageWithExtrasResults.paymentSchedule newMortgageWithExtras)))%Z in
  RefinanceResults.mk currentMortgage newMortgage
    newMortgageWithExtrasFormatted monthlySavings totalInterestSavings
    totalSavings breakEvenMonths payoffTimeSaved.

(** [errors.push(msg)] when [cond] holds. *)
Definition pushIf (cond : bool) (msg : string) (errors : list string)
    : list string :=
  if cond then errors ++ [msg] else errors.

(** [validateRefinanceInputs], lines 655-699. *)
Definition validateRefinanceInputs (inputs : RefinanceInputs.t)
    : list string :=
  let errors := [] in
  let errors :=
    pushIf (Qle_bool (RefinanceInputs.currentLoanAmount inputs) 0)
      "Current loan amount must be greater than 0" errors in
  let errors :=
    pushIf (ltb (RefinanceInputs.currentInterestRate inputs) 0 ||
            gtb (RefinanceInputs.currentInterestRate inputs) 50)
      "Current interest rate must be between 0% and 50%" errors in
  let errors :=
    pushIf ((RefinanceInputs.currentRemainingYears inputs <=? 0)%Z ||
            (RefinanceInputs.currentRemainingYears inputs >? 50)%Z)
      "Current remaining years must be between 1 and 50" errors in
  let errors :=
    pushIf (Qle_bool (RefinanceInputs.newLoanAmount inputs) 0)
      "New loan amount must be greater than 0" errors in
  let errors :=
    pushIf (ltb (RefinanceInputs.newInterestRate inputs) 0 ||
            gtb (RefinanceInputs.newInterestRate inputs) 50)
      "New interest rate must be between 0% and 50%" errors in
  let errors :=
    pushIf ((RefinanceInputs.newLoanTermYears inputs <=? 0)%Z ||
            (RefinanceInputs.newLoanTermYears inputs >? 50)%Z)
      "New loan term must be between 1 and 50 years" errors in
  let errors :=
    pushIf (ltb (RefinanceInputs.closingCosts inputs) 0)
      "Closing costs cannot be negative" errors in
  let errors :=
    pushIf (ltb (RefinanceInputs.extraMonthlyPayment inputs) 0)
      "Extra monthly payment cannot be negative" errors in
  let errors :=
    pushIf (ltb (RefinanceInputs.annualExtraPayment inputs) 0)
      "Annual extra payment cannot be negative" errors in
  errors.

(** [validateMortgageInputs], lines 401-429. *)
Definition validateMortgageInputs (inputs : MortgageInputs.t) : list string :=
  let errors := [] in
  let errors :=
    pushIf (Qle_bool (MortgageInputs.loanAmount inputs) 0)
      "Loan amount must be greater than 0" errors in
  let errors :=
    pushIf (gtb (MortgageInputs.loanAmount inputs) 10000000)
      "Loan amount must be less than $10,000,000" errors in
  let errors :=
    pushIf (ltb (MortgageInputs.interestRate inputs) 0)
      "Interest rate cannot be negative" errors in
  let errors :=
    pushIf (gtb (MortgageInputs.interestRate inputs) 50)
      "Interest rate seems unreasonably high (>50%)" errors in
  let errors :=
    pushIf (MortgageInputs.loanTermYears inputs <=? 0)%Z
      "Loan term must be greater than 0 years" errors in
  let errors :=
    pushIf (MortgageInputs.loanTermYears inputs >? 50)%Z
      "Loan term must be 50 years or less" errors in
  errors.

(** [generateChartData], lines 312-319. *)
Definition generateChartData (paymentSchedule : list PaymentScheduleItem.t)
    : list ChartDataPoint.t :=
  Array_map
    (fun payment index =>
       ChartDataPoint.mk
         (index + 1)
         (PaymentScheduleItem.principalPayment payment)
         (PaymentScheduleItem.interestPayment payment)
         (PaymentScheduleItem.remainingBalance payment))
    paymentSchedule.

End Mortgage.

(** ** The earlier declarations

    The first declarations of [calculateMortgageWithExtras],
    [calculateRefinanceComparison] and [validateRefinanceInputs]
    (lines 173-307 and 359-396), which the later ones replace. *)

Module Earlier.

Import JsDate Js Mortgage.

Module AdditionalPaymentResults.
Record t : Type := mk
  { monthlyPayment : Q;
    monthlyPrincipalAndInterest : Q;
    totalInterest : Q;
    totalPayments : Q;
    paymentSchedule : list PaymentScheduleItem.t;
    payoffDate : string;
    timeSavedMonths : Z;
    interestSaved : Q }.
End AdditionalPaymentResults.

Module RefinanceResults.
Record t : Type := mk
  { currentMortgage : MortgageResults.t;
    newMortgage : MortgageResults.t;
    newMortgageWithExtras : AdditionalPaymentResults.t;
    monthlySavings : Q;
    totalInterestSavings : Q;
    totalSavings : Q;
    breakEvenMonths : Q;
    payoffTimeSaved : Z }.
End RefinanceResults.

(** The [while] loop of the earlier [calculateMortgageWithExtras],
    lines 190-229; it returns the rows and the final [cumulativeInterest]. *)
Fixpoint extrasLoop (startDate : Date)
    (monthlyInterestRate totalMonthlyPayment : Q) (loanTermYears : Z)
    (annualExtraPayment : Q) (enableAnnualPayment : bool)
    (fuel : nat) (paymentNumber : Z) (remainingBalance cumulativeInterest : Q)
    : list PaymentScheduleItem.t * Q :=
  match fuel with
  | O => ([], cumulativeInterest)
  | S fuel' =>
      if gtb remainingBalance 0.01 &&
         (paymentNumber <=? loanTermYears * 12)%Z then
        let interestPayment := remainingBalance * monthlyInterestRate in
        let principalPayment := totalMonthlyPayment - interestPayment in
        let annual :=
          enableAnnualPayment && gtb annualExtraPayment 0 &&
          (Z.rem paymentNumber 12 =? 1)%Z && (paymentNumber >? 1)%Z in
        let extraPayment :=
          if annual then Math_min annualExtraPayment remainingBalance else 0 in
        let principalPayment :=
          if annual then principalPayment + extraPayment
          else principalPayment in
        let principalPayment :=
          if gtb principalPayment remainingBalance then remainingBalance
          else principalPayment in
        let remainingBalance := remainingBalance - principalPayment in
        let cumulativeInterest := cumulativeInterest + interestPayment in
        let remainingBalance :=
          if ltb remainingBalance 0.01 then 0 else remainingBalance in
        let row :=
          pushed startDate paymentNumber principalPayment interestPayment
                 (interestPayment + principalPayment) remainingBalance
                 cumulativeInterest in
        let paymentNumber := (paymentNumber + 1)%Z in
        if Qle_bool remainingBalance 0.01 then ([row], cumulativeInterest)
        else
          let rest :=
            extrasLoop startDate monthlyInterestRate totalMonthlyPayment
              loanTermYears annualExtraPayment enableAnnualPayment fuel'
              paymentNumber remainingBalance cumulativeInterest in
          (row :: fst rest, snd rest)
      else ([], cumulativeInterest)
  end.

(** The earlier [calculateMortgageWithExtras], lines 173-254. *)
Definition calculateMortgageWithExtras (now : Date) (inputs : MortgageInputs.t)
    (extraMonthlyPayment annualExtraPayment : Q) (enableAnnualPayment : bool)
    : AdditionalPaymentResults.t :=
  let loanAmount := MortgageInputs.loanAmount inputs in
  let interestRate := MortgageInputs.interestRate inputs in
  let loanTermYears := MortgageInputs.loanTermYears inputs in
  let monthlyInterestRate := interestRate / 100 / 12 in
  let regularPayment :=
    calculateMonthlyPayment loanAmount interestRate loanTermYears in
  let totalMonthlyPayment := regularPayment + extraMonthlyPayment in
  let startDate := now in
  let looped :=
    extrasLoop startDate monthlyInterestRate totalMonthlyPayment loanTermYears
      annualExtraPayment enableAnnualPayment
      (Z.to_nat (loanTermYears * 12)) 1 loanAmount 0 in
  let schedule := fst looped in
  let cumulativeInterest := snd looped in
  let originalTerm := (loanTermYears * 12)%Z in
  let actualTerm := Z.of_nat (List.length schedule) in
  let timeSavedMonths := (originalTerm - actualTerm)%Z in
  let regularMortgage := calculateMortgageDetails now inputs in
  let interestSaved :=
    MortgageResults.totalInterest regularMortgage - cumulativeInterest in
  let payoffDate :=
    match List.rev schedule with
    | lastPayment :: _ => PaymentScheduleItem.paymentDate lastPayment
    | [] => EmptyString
    end in
  let totalOfAllPayments :=
    reduce_sum PaymentScheduleItem.totalPayment schedule in
  AdditionalPaymentResults.mk totalMonthlyPayment regularPayment
    cumulativeInterest totalOfAllPayments schedule payoffDate
    timeSavedMonths interestSaved.

(** The earlier [calculateRefinanceComparison], lines 259-307. *)
Definition calculateRefinanceComparison (now : Date)
    (inputs : RefinanceInputs.t) : RefinanceResults.t :=
  let currentInputs :=
    MortgageInputs.loan
      (RefinanceInputs.currentLoanAmount inputs)
      (RefinanceInputs.currentInterestRate inputs)
      (RefinanceInputs.currentRemainingYears inputs) in
  let currentMortgage := calculateMortgageDetails now currentInputs in
  let newInputs :=
    MortgageInputs.loan
      (RefinanceInputs.newLoanAmount inputs)
      (RefinanceInputs.newInterestRate inputs)
      (RefinanceInputs.newLoanTermYears inputs) in
  let newMortgage := calculateMortgageDetails now newInputs in
  let newMortgageWithExtras :=
    calculateMortgageWithExtras now newInputs
      (RefinanceInputs.extraMonthlyPayment inputs)
      (RefinanceInputs.annualExtraPayment inputs)
      (RefinanceInputs.enableAnnualPayment inputs) in
  let monthlySavings :=
    MortgageResults.monthlyPayment currentMortgage -
    MortgageResults.monthlyPayment newMortgage in
  let totalInterestSavings :=
    MortgageResults.totalInterest currentMortgage -
    AdditionalPaymentResults.totalInterest newMortgageWithExtras in
  let totalSavings :=
    totalInterestSavings - RefinanceInputs.closingCosts inputs +
    RefinanceInputs.cashOut inputs in
  let breakEvenMonths :=
    RefinanceInputs.closingCosts inputs / Math_max monthlySavings 1 in
  let currentTotalMonths :=
    (RefinanceInputs.currentRemainingYears inputs * 12)%Z in
  let newTotalMonths :=
    Z.of_nat
      (List.length
         (AdditionalPaymentResults.paymentSchedule newMortgageWithExtras)) in
  let payoffTimeSaved := (currentTotalMonths - newTotalMonths)%Z in
  RefinanceResults.mk currentMortgage newMortgage newMortgageWithExtras
    monthlySavings totalInterestSavings totalSavings breakEvenMonths
    payoffTimeSaved.

(** The earlier [validateRefinanceInputs], lines 359-396. *)
Definition validateRefinanceInputs (inputs : RefinanceInputs.t)
    : list string :=
  let errors := [] in
  let errors :=
    pushIf (Qle_bool (RefinanceInputs.currentLoanAmount inputs) 0)
      "Current loan amount must be greater than 0" errors in
  let errors :=
    pushIf (ltb (RefinanceInputs.currentInterestRate inputs) 0)
      "Current interest rate cannot be negative" errors in
  let errors :=
    pushIf (RefinanceInputs.currentRemainingYears inputs <=? 0)%Z
      "Current remaining years must be greater than 0" errors in
  let errors :=
    pushIf (Qle_bool (RefinanceInputs.newLoanAmount inputs) 0)
      "New loan amount must be greater than 0" errors in
  let errors :=
    pushIf (ltb (RefinanceInputs.newInterestRate inputs) 0)
      "New interest rate cannot be negative" errors in
  let errors :=
    pushIf (RefinanceInputs.newLoanTermYears inputs <=? 0)%Z
      "New loan term must be greater than 0" errors in
  let errors :=
    pushIf (ltb (RefinanceInputs.extraMonthlyPayment inputs) 0)
      "Extra monthly payment cannot be negative" errors in
  let errors :=
    pushIf (ltb (RefinanceInputs.annualExtraPayment inputs) 0)
      "Annual extra payment cannot be negative" errors in
  let errors :=
    pushIf (ltb (RefinanceInputs.closingCosts inputs) 0)
      "Closing costs cannot be negative" errors in
  errors.

End Earlier.

(** ** The pages that call the engine *)

(** The home page component (the second part of
    [src/components/RefinancePage.tsx], from line 655): the calculation
    handler of lines 715-733 and the sampling of chart points of lines
    745-782; rendering is not modelled. *)
Module HomePage.

Import Js Mortgage.

(** The body of the timer in [calculateMortgage]: the new values of the
    [errors] and [results] state. *)
Definition calculateMortgage (now : JsDate.Date) (inputs : MortgageInputs.t)
    : list string * option MortgageResults.t :=
  let validationErrors := validateMortgageInputs inputs in
  if (0 <? Z.of_nat (List.length validationErrors))%Z then
    (validationErrors, None)
  else
    let mortgageResults := calculateMortgageDetails now inputs in
    ([], Some mortgageResults).

(** [data.filter((_, index) => index % sampleRate === 0 ||
                               index === data.length - 1)]. *)
Definition sampled (data : list ChartDataPoint.t) (sampleRate : Z)
    : list ChartDataPoint.t :=
  Array_filter
    (fun _ index =>
       (Z.rem index sampleRate =? 0)%Z ||
       (index =? Z.of_nat (List.length data) - 1)%Z)
    data.

(** The points of the principal/interest chart ([chartData]). *)
Definition chartSample (paymentSchedule : list PaymentScheduleItem.t)
    : list ChartDataPoint.t :=
  let data := generateChartData paymentSchedule in
  let sampleRate := if (Z.of_nat (List.length data) >? 120)%Z then 12%Z else 1%Z in
  sampled data sampleRate.

(** The points of the balance chart ([balanceChartData]). *)
Definition balanceSample (paymentSchedule : list PaymentScheduleItem.t)
    : list ChartDataPoint.t :=
  let data := generateChartData paymentSchedule in
  let sampleRate := if (Z.of_nat (List.length data) >? 120)%Z then 12%Z else 6%Z in
  sampled data sampleRate.

End HomePage.

(** The refinance page component ([src/components/RefinancePage.tsx]): the
    calculation handler of lines 81-98 and the recommendation of line 168. *)
Module RefinancePage.

Import Js Mortgage.

(** The body of the timer in [calculateRefinance]. *)
Definition calculateRefinance (now : JsDate.Date) (inputs : RefinanceInputs.t)
    : list string * option RefinanceResults.t :=
  let validationErrors := validateRefinanceInputs inputs in
  if (0 <? Z.of_nat (List.length validationErrors))%Z then
    (validationErrors, None)
  else
    let refinanceResults := calculateRefinanceComparison now inputs in
    ([], Some refinanceResults).

(** [results && results.totalSavings > 0 && results.breakEvenMonths < 60],
    as a truth value. *)
Definition isRefinanceWorthwhile (results : option RefinanceResults.t) : bool :=
  match results with
  | None => false
  | Some results =>
      gtb (RefinanceResults.totalSavings results) 0 &&
      ltb (RefinanceResults.breakEvenMonths results) 60
  end.

End RefinancePage.

(** ** The schedule generators in binary64

    The payment formula and the two generators once more, with [number]
    read as a primitive float: every arithmetic operation and comparison
    below is the IEEE 754 binary64 operation that JavaScript performs. *)

Module Binary64.

Import PrimFloat SpecFloat FloatOps.
Local Open Scope float_scope.
Local Set Warnings "-inexact-float".

(** An integer as a [number]; exact up to [2^53]. *)
Definition of_Z (z : Z) : float :=
  match z with
  | Z0 => 0
  | Zpos p => SF2Prim (S754_finite false p 0)
  | Zneg p => SF2Prim (S754_finite true p 0)
  end.

(** [Math.round]: [floor(x + 1/2)] computed exactly.  A [number] whose
    binary exponent is not negative is an integer already; [-0] is kept
    for an argument in [[-1/2, -0]]. *)
Definition Math_round (x : float) : float :=
  match Prim2SF x with
  | S754_finite s m e =>
      if (0 <=? e)%Z then x
      else
        let num := if s then Zneg m else Zpos m in
        let n := ((2 * num + 2 ^ (- e)) / 2 ^ (- e + 1))%Z in
        if ((n =? 0)%Z && s)%bool then (-0) else of_Z n
  | _ => x
  end.

(** The idiom [Math.round(x * 100) / 100]. *)
Definition round2 (x : float) : float := Math_round (x * 100) / 100.

(** [Math.pow] at a finite base of at least 1 and a natural exponent,
    correctly rounded: the exact power of the base's rational value, rounded
    to the nearest [number], ties to even. *)
Definition Math_pow (x : float) (n : Z) : float :=
  match Prim2SF x with
  | S754_finite false m e =>
      let mantissa := (Zpos m ^ n)%Z in
      let exponent := (e * n)%Z in
      let excess := (Z.log2 mantissa + 1 - 53)%Z in
      if (excess <=? 0)%Z then Z.ldexp (of_Z mantissa) exponent
      else
        let q := Z.shiftr mantissa excess in
        let rest := (mantissa - Z.shiftl q excess)%Z in
        let half := Z.shiftl 1 (excess - 1) in
        let q :=
          if (rest <? half)%Z then q
          else if (half <? rest)%Z then (q + 1)%Z
          else if Z.even q then q else (q + 1)%Z in
        Z.ldexp (of_Z q) (exponent + excess)
  | _ => nan
  end.

(** The [number] [d] places above [x] ([- d] places below for negative [d]). *)
Definition neighbour (d : Z) (x : float) : float :=
  match d with
  | Z0 => x
  | Zpos p => Pos.iter next_up x p
  | Zneg p => Pos.iter next_down x p
  end.

(** ECMAScript leaves the accuracy of [Math.pow] to the host
    ("implementation-approximated").  The host's [Math.pow] is therefore
    an argument ([pow]) of the functions that call it, and the statements
    about them are made for every host whose result lies within three places
    of the correctly rounded power. *)
Definition Math_pow_off (d : Z) (x : float) (n : Z) : float :=
  neighbour d (Math_pow x n).

Module PaymentScheduleItem.
Record t : Type := mk
  { paymentNumber : Z;
    paymentDate : string;
    principalPayment : float;
    interestPayment : float;
    totalPayment : float;
    remainingBalance : float;
    cumulativeInterest : float }.
End PaymentScheduleItem.

(** [a.reduce((sum, p) => sum + f(p), 0)]. *)
Definition reduce_sum {A : Type} (f : A -> float) (a : list A) : float :=
  fold_left (fun sum p => sum + f p) a 0.

(** [calculateMonthlyPayment], lines 78-95. *)
Definition calculateMonthlyPayment (pow : float -> Z -> float)
    (loanAmount annualInterestRate : float) (loanTermYears : Z) : float :=
  if annualInterestRate =? 0 then
    loanAmount / of_Z (loanTermYears * 12)
  else
    let monthlyInterestRate := annualInterestRate / 100 / 12 in
    let numberOfPayments := (loanTermYears * 12)%Z in
    let monthlyPayment :=
      loanAmount *
      (monthlyInterestRate * pow (1 + monthlyInterestRate) numberOfPayments) /
      (pow (1 + monthlyInterestRate) numberOfPayments - 1) in
    monthlyPayment.

Definition pushed (startDate : JsDate.Date) (paymentNumber : Z)
    (principalPayment interestPayment totalPayment
     remainingBalance cumulativeInterest : float) : PaymentScheduleItem.t :=
  PaymentScheduleItem.mk
    paymentNumber
    (Mortgage.paymentDateOf startDate paymentNumber)
    (round2 principalPayment)
    (round2 interestPayment)
    (round2 totalPayment)
    (round2 remainingBalance)
    (round2 cumulativeInterest).

(** The [for] loop of [generatePaymentSchedule], lines 142-165. *)
Fixpoint paymentLoop (startDate : JsDate.Date)
    (monthlyInterestRate monthlyPayment : float) (numberOfPayments : Z)
    (fuel : nat) (i : Z) (remainingBalance cumulativeInterest : float)
    : list PaymentScheduleItem.t :=
  match fuel with
  | O => []
  | S fuel' =>
      if (i <=? numberOfPayments)%Z then
        let interestPayment := remainingBalance * monthlyInterestRate in
        let principalPayment := monthlyPayment - interestPayment in
        let remainingBalance := remainingBalance - principalPayment in
        let cumulativeInterest := cumulativeInterest + interestPayment in
        let remainingBalance :=
          if remainingBalance <? 0.01 then 0 else remainingBalance in
        pushed startDate i principalPayment interestPayment monthlyPayment
               remainingBalance cumulativeInterest
        :: paymentLoop startDate monthlyInterestRate monthlyPayment
             numberOfPayments fuel' (i + 1) remainingBalance cumulativeInterest
      else []
  end.

(** [generatePaymentSchedule], lines 127-168. *)
Definition generatePaymentSchedule (pow : float -> Z -> float)
    (now : JsDate.Date)
    (loanAmount annualInterestRate : float) (loanTermYears : Z)
    : list PaymentScheduleItem.t :=
  let monthlyInterestRate := annualInterestRate / 100 / 12 in
  let numberOfPayments := (loanTermYears * 12)%Z in
  let monthlyPayment :=
    calculateMonthlyPayment pow loanAmount annualInterestRate loanTermYears in
  let startDate := now in
  paymentLoop startDate monthlyInterestRate monthlyPayment numberOfPayments
    (Z.to_nat numberOfPayments) 1 loanAmount 0.

(** The lump-sum condition of line 510. *)
Definition lumpSumDue (enableAnnualPayment : bool) (annualExtraPayment : float)
    (paymentNumber : Z) : bool :=
  (enableAnnualPayment && (0 <? annualExtraPayment) &&
   (Z.rem paymentNumber 12 =? 1)%Z && (paymentNumber >? 1)%Z)%bool.

(** The [while] loop of [generateScheduleWithExtras], lines 498-538. *)
Fixpoint extrasLoop (startDate : JsDate.Date)
    (monthlyInterestRate baseMonthlyPayment : float) (numberOfPayments : Z)
    (extraMonthlyPayment annualExtraPayment : float) (enableAnnualPayment : bool)
    (fuel : nat) (paymentNumber : Z) (remainingBalance cumulativeInterest : float)
    : list PaymentScheduleItem.t :=
  match fuel with
  | O => []
  | S fuel' =>
      if ((0.01 <? remainingBalance) &&
          (paymentNumber <=? numberOfPayments * 2)%Z)%bool then
        let interestPayment := remainingBalance * monthlyInterestRate in
        let principalPayment := baseMonthlyPayment - interestPayment in
        let totalPayment := baseMonthlyPayment in
        let monthly := 0 <? extraMonthlyPayment in
        let principalPayment :=
          if monthly then principalPayment + extraMonthlyPayment
          else principalPayment in
        let totalPayment :=
          if monthly then totalPayment + extraMonthlyPayment
          else totalPayment in
        let annual :=
          lumpSumDue enableAnnualPayment annualExtraPayment paymentNumber in
        let principalPayment :=
          if annual then principalPayment + annualExtraPayment
          else principalPayment in
        let totalPayment :=
          if annual then totalPayment + annualExtraPayment
          else totalPayment in
        let overpay := remainingBalance <? principalPayment in
        let principalPayment :=
          if overpay then remainingBalance else principalPayment in
        let totalPayment :=
          if overpay then interestPayment + principalPayment
          else totalPayment in
        let remainingBalance := remainingBalance - principalPayment in
        let cumulativeInterest := cumulativeInterest + interestPayment in
        pushed startDate paymentNumber principalPayment interestPayment
               totalPayment remainingBalance cumulativeInterest
        :: extrasLoop startDate monthlyInterestRate baseMonthlyPayment
             numberOfPayments extraMonthlyPayment annualExtraPayment
             enableAnnualPayment fuel' (paymentNumber + 1)
             remainingBalance cumulativeInterest
      else []
  end.

(** [generateScheduleWithExtras], lines 479-541. *)
Definition generateScheduleWithExtras (pow : float -> Z -> float)
    (now : JsDate.Date)
    (loanAmount annualInterestRate : float) (loanTermYears : Z)
    (extraMonthlyPayment annualExtraPayment : float) (enableAnnualPayment : bool)
    : list PaymentScheduleItem.t :=
  let monthlyInterestRate := annualInterestRate / 100 / 12 in
  let numberOfPayments := (loanTermYears * 12)%Z in
  let baseMonthlyPayment :=
    calculateMonthlyPayment pow loanAmount annualInterestRate loanTermYears in
  let startDate := now in
  extrasLoop startDate monthlyInterestRate baseMonthlyPayment numberOfPayments
    extraMonthlyPayment annualExtraPayment enableAnnualPayment
    (Z.to_nat (numberOfPayments * 2)) 1 loanAmount 0.

End Binary64.

(** ** Quantities the proofs speak about

    Names for sub-expressions of the loop bodies and for the annuity
    arithmetic behind the payment formula.  Nothing here is part of the
    program; each definition says which lines it abbreviates. *)

Module Amortization.

Import Js Mortgage.

(** The balance carried to the next period by [generatePaymentSchedule]:
    lines 143-151. *)
Definition carried (r M rb : Q) : Q :=
  let rb' := rb - (M - rb * r) in
  if ltb rb' 0.01 then 0 else rb'.

(** The principal actually paid in a period of
    [generateScheduleWithExtras]: lines 499-519. *)
Definition paidPrincipal (r M e a : Q) (en : bool) (k : Z) (rb : Q) : Q :=
  let p0 := M - rb * r in
  let p1 := if gtb e 0 then p0 + e else p0 in
  let p2 := if lumpSumDue en a k then p1 + a else p1 in
  if gtb p2 rb then rb else p2.

(** What the extra payments add to the scheduled principal of period [k]:
    lines 504-513. *)
Definition extraPrincipal (e a : Q) (en : bool) (k : Z) : Q :=
  (if gtb e 0 then e else 0) + (if lumpSumDue en a k then a else 0).

(** The total recorded for that period. *)
Definition paidTotal (r M e a : Q) (en : bool) (k : Z) (rb : Q) : Q :=
  let p0 := M - rb * r in
  let p1 := if gtb e 0 then p0 + e else p0 in
  let p2 := if lumpSumDue en a k then p1 + a else p1 in
  let t1 := if gtb e 0 then M + e else M in
  let t2 := if lumpSumDue en a k then t1 + a else t1 in
  if gtb p2 rb then rb * r + rb else t2.

(** The two loops with the carried state kept in lowest terms.  They
    return the same rows (see [paymentLoop_reduced], [extrasLoop_reduced])
    and are the ones to run: without reduction the denominators of the
    carried balance square at every period. *)
Fixpoint paymentLoopR (startDate : JsDate.Date) (r M : Q) (n : Z)
    (fuel : nat) (i : Z) (rb cum : Q) : list PaymentScheduleItem.t :=
  match fuel with
  | O => []
  | S fuel' =>
      if (i <=? n)%Z then
        let rb' := Qred (carried r M rb) in
        let cum' := Qred (cum + rb * r) in
        pushed startDate i (M - rb * r) (rb * r) M rb' cum'
        :: paymentLoopR startDate r M n fuel' (i + 1) rb' cum'
      else []
  end.

Fixpoint extrasLoopR (startDate : JsDate.Date) (r M : Q) (n : Z)
    (e a : Q) (en : bool) (fuel : nat) (k : Z) (rb cum : Q)
    : list PaymentScheduleItem.t :=
  match fuel with
  | O => []
  | S fuel' =>
      if gtb rb 0.01 && (k <=? n * 2)%Z then
        let rb' := Qred (rb - paidPrincipal r M e a en k rb) in
        let cum' := Qred (cum + rb * r) in
        pushed startDate k (paidPrincipal r M e a en k rb) (rb * r)
               (paidTotal r M e a en k rb) rb' cum'
        :: extrasLoopR startDate r M n e a en fuel' (k + 1) rb' cum'
      else []
  end.

(** A row without its date column. *)
Definition monetary (row : PaymentScheduleItem.t)
    : Z * Q * Q * Q * Q * Q :=
  (PaymentScheduleItem.paymentNumber row,
   PaymentScheduleItem.principalPayment row,
   PaymentScheduleItem.interestPayment row,
   PaymentScheduleItem.totalPayment row,
   PaymentScheduleItem.remainingBalance row,
   PaymentScheduleItem.cumulativeInterest row).

(** [1 + q + ... + q^(m-1)]. *)
Fixpoint geom (q : Q) (m : nat) : Q :=
  match m with
  | O => 0
  | S m' => geom q m' + q ^ Z.of_nat m'
  end.

(** With [m] payments of [M] left at periodic rate [r], the balance [rb]
    is what those payments are worth: [rb * (1+r)^m = M * (1 + ... + (1+r)^(m-1))]. *)
Definition owed (r M : Q) (m : nat) (rb : Q) : Prop :=
  rb * (1 + r) ^ Z.of_nat m == M * geom (1 + r) m.

End Amortization.

(** * Properties *)

(** ** Numbers: comparisons, rounding, sums *)

Module JsFacts.

Import Js.

(** Division by the constants of the source, as multiplication. *)
Ltac qdiv :=
  unfold Qdiv in *;
  change (/ 100) with (1 # 100) in *;
  change (/ 12) with (1 # 12) in *.

Lemma ltb_lt (x y : Q) : ltb x y = true <-> x < y.
Proof. unfold ltb, Qlt. apply Z.ltb_lt. Qed.

Lemma ltb_ge (x y : Q) : ltb x y = false <-> y <= x.
Proof. unfold ltb, Qle. rewrite Z.ltb_ge. tauto. Qed.

Lemma gtb_gt (x y : Q) : gtb x y = true <-> y < x.
Proof. apply ltb_lt. Qed.

Lemma gtb_le (x y : Q) : gtb x y = false <-> x <= y.
Proof. apply ltb_ge. Qed.

Lemma eqb_eq (x y : Q) : eqb x y = true <-> x == y.
Proof. apply Qeq_bool_iff. Qed.

Lemma eqb_neq (x y : Q) : eqb x y = false <-> ~ x == y.
Proof.
  unfold eqb. split.
  - intros H E. apply Qeq_bool_iff in E. congruence.
  - intros H. destruct (Qeq_bool x y) eqn:E; [|reflexivity].
    apply Qeq_bool_iff in E. contradiction.
Qed.

#[export] Instance ltb_comp : Proper (Qeq ==> Qeq ==> eq) ltb.
Proof.
  intros x x' Hx y y' Hy.
  destruct (ltb x y) eqn:E, (ltb x' y') eqn:E'; try reflexivity.
  - apply ltb_lt in E. apply ltb_ge in E'. rewrite Hx, Hy in E. lra.
  - apply ltb_ge in E. apply ltb_lt in E'. rewrite Hx, Hy in E. lra.
Qed.

#[export] Instance gtb_comp : Proper (Qeq ==> Qeq ==> eq) gtb.
Proof. intros x x' Hx y y' Hy. unfold gtb. now rewrite Hx, Hy. Qed.

(** Rounding sends equal rationals to the very same representative. *)
Lemma Math_round_comp (x y : Q) : x == y -> Math_round x = Math_round y.
Proof. intros H. unfold Math_round. now rewrite H. Qed.

Lemma round2_comp (x y : Q) : x == y -> round2 x = round2 y.
Proof.
  intros H. unfold round2. rewrite (Math_round_comp (x * 100) (y * 100)).
  - reflexivity.
  - now rewrite H.
Qed.

Lemma Math_round_le (x y : Q) : x <= y -> Math_round x <= Math_round y.
Proof.
  intros H. unfold Math_round. rewrite <- Zle_Qle.
  apply Qfloor_resp_le. lra.
Qed.

Lemma Math_round_Z (z : Z) : Math_round (inject_Z z) = inject_Z z.
Proof.
  unfold Math_round. f_equal.
  assert (Hlo : (z <= Qfloor (inject_Z z + (1 # 2)))%Z).
  { rewrite <- (Qfloor_Z z) at 1. apply Qfloor_resp_le. lra. }
  assert (Hhi : (Qfloor (inject_Z z + (1 # 2)) < z + 1)%Z).
  { rewrite Zlt_Qlt. eapply Qle_lt_trans; [apply Qfloor_le|].
    rewrite inject_Z_plus. change (inject_Z 1) with 1. lra. }
  lia.
Qed.

(** [Math.round] is within one half of its argument. *)
Lemma Math_round_bounds (x : Q) :
  x - (1 # 2) < Math_round x /\ Math_round x <= x + (1 # 2).
Proof.
  unfold Math_round. split.
  - pose proof (Qlt_floor (x + (1 # 2))) as H.
    rewrite inject_Z_plus in H. change (inject_Z 1) with 1 in H. lra.
  - apply Qfloor_le.
Qed.

Lemma round2_le (x y : Q) : x <= y -> round2 x <= round2 y.
Proof.
  intros H. unfold round2.
  assert (Math_round (x * 100) <= Math_round (y * 100))
    by (apply Math_round_le; lra).
  qdiv. lra.
Qed.

(** Emission moves an amount by at most half a cent. *)
Lemma round2_bounds (x : Q) :
  x - (1 # 200) < round2 x /\ round2 x <= x + (1 # 200).
Proof.
  unfold round2. destruct (Math_round_bounds (x * 100)).
  qdiv. split; lra.
Qed.

Lemma round2_cents (z : Z) : round2 (inject_Z z / 100) == inject_Z z / 100.
Proof.
  unfold round2.
  rewrite (Math_round_comp (inject_Z z / 100 * 100) (inject_Z z))
    by (field).
  rewrite Math_round_Z. reflexivity.
Qed.

Lemma round2_0 : round2 0 == 0.
Proof. apply (round2_cents 0). Qed.

Lemma round2_nonneg (x : Q) : 0 <= x -> 0 <= round2 x.
Proof. intros H. rewrite <- round2_0. now apply round2_le. Qed.

(** An amount of at least one cent is emitted as at least one cent. *)
Lemma round2_cent (x : Q) : 0.01 <= x -> 0.01 <= round2 x.
Proof.
  intros H. apply (round2_le 0.01 x) in H.
  assert (E : round2 0.01 == 0.01) by (apply (round2_cents 1)).
  lra.
Qed.

(** [reduce] with [+] adds the mapped values to its accumulator. *)
Lemma fold_sum_acc {A : Type} (f : A -> Q) (a : list A) (acc : Q) :
  fold_left (fun sum p => sum + f p) a acc ==
  acc + fold_left (fun sum p => sum + f p) a 0.
Proof.
  revert acc. induction a as [|x a IH]; intros acc; simpl.
  - lra.
  - rewrite IH. rewrite (IH (0 + f x)). lra.
Qed.

Lemma reduce_sum_nil {A : Type} (f : A -> Q) : reduce_sum f [] == 0.
Proof. reflexivity. Qed.

Lemma reduce_sum_cons {A : Type} (f : A -> Q) (x : A) (a : list A) :
  reduce_sum f (x :: a) == f x + reduce_sum f a.
Proof.
  unfold reduce_sum. simpl. rewrite fold_sum_acc. lra.
Qed.

Lemma reduce_sum_nonneg {A : Type} (f : A -> Q) (a : list A) :
  Forall (fun x => 0 <= f x) a -> 0 <= reduce_sum f a.
Proof.
  induction 1 as [|x a Hx _ IH].
  - rewrite reduce_sum_nil. lra.
  - rewrite reduce_sum_cons. lra.
Qed.

End JsFacts.

(** ** The two schedule loops *)

Module LoopFacts.

Import Js JsFacts JsDate Mortgage Amortization.

Lemma pushed_comp d k p p' i i' t t' b b' c c' :
  p == p' -> i == i' -> t == t' -> b == b' -> c == c' ->
  pushed d k p i t b c = pushed d k p' i' t' b' c'.
Proof.
  intros Hp Hi Ht Hb Hc. unfold pushed.
  now rewrite (round2_comp _ _ Hp), (round2_comp _ _ Hi),
    (round2_comp _ _ Ht), (round2_comp _ _ Hb), (round2_comp _ _ Hc).
Qed.

#[export] Instance carried_comp :
  Proper (Qeq ==> Qeq ==> Qeq ==> Qeq) carried.
Proof.
  intros r r' Hr M M' HM rb rb' Hb. unfold carried.
  assert (E : rb - (M - rb * r) == rb' - (M' - rb' * r'))
    by now rewrite Hr, HM, Hb.
  rewrite (ltb_comp _ _ E 0.01 0.01 (Qeq_refl _)).
  destruct (ltb _ _); [reflexivity | exact E].
Qed.

Section Base.

Variables (d : Date) (r M : Q) (n : Z).

Lemma paymentLoop_O i rb cum : paymentLoop d r M n O i rb cum = [].
Proof. reflexivity. Qed.

Lemma paymentLoop_done fuel i rb cum :
  (n < i)%Z -> paymentLoop d r M n fuel i rb cum = [].
Proof.
  intros H. destruct fuel; [reflexivity|]. simpl.
  destruct (Z.leb_spec i n); [lia | reflexivity].
Qed.

Lemma paymentLoop_S fuel i rb cum :
  (i <= n)%Z ->
  paymentLoop d r M n (S fuel) i rb cum =
  pushed d i (M - rb * r) (rb * r) M (carried r M rb) (cum + rb * r)
  :: paymentLoop d r M n fuel (i + 1) (carried r M rb) (cum + rb * r).
Proof.
  intros H. simpl. destruct (Z.leb_spec i n); [reflexivity | lia].
Qed.

(** Once the fuel covers the periods left, more fuel changes nothing:
    the loop ends on its own condition. *)
Lemma paymentLoop_fuel fuel i rb cum :
  (Z.to_nat (n - i + 1) <= fuel)%nat ->
  paymentLoop d r M n fuel i rb cum =
  paymentLoop d r M n (Z.to_nat (n - i + 1)) i rb cum.
Proof.
  revert i rb cum. induction fuel as [|fuel IH]; intros i rb cum H.
  - replace (Z.to_nat (n - i + 1)) with O by lia. reflexivity.
  - destruct (Z.le_gt_cases i n) as [Hi|Hi].
    + replace (Z.to_nat (n - i + 1)) with (S (Z.to_nat (n - (i + 1) + 1)))
        by lia.
      rewrite !paymentLoop_S by assumption. f_equal.
      apply IH. lia.
    + now rewrite !paymentLoop_done by lia.
Qed.

Lemma paymentLoop_length fuel i rb cum :
  (Z.of_nat fuel = n - i + 1)%Z ->
  List.length (paymentLoop d r M n fuel i rb cum) = fuel.
Proof.
  revert i rb cum. induction fuel as [|fuel IH]; intros i rb cum H.
  - reflexivity.
  - rewrite paymentLoop_S by lia. simpl. f_equal. apply IH. lia.
Qed.

End Base.

Lemma paymentLoop_comp d r r' M M' n fuel i rb rb' cum cum' :
  r == r' -> M == M' -> rb == rb' -> cum == cum' ->
  paymentLoop d r M n fuel i rb cum = paymentLoop d r' M' n fuel i rb' cum'.
Proof.
  intros Hr HM. revert i rb rb' cum cum'.
  induction fuel as [|fuel IH]; intros i rb rb' cum cum' Hb Hc.
  - reflexivity.
  - destruct (Z.le_gt_cases i n) as [Hi|Hi].
    + rewrite !paymentLoop_S by assumption. f_equal.
      * apply pushed_comp; try assumption;
          try (now rewrite ?Hr, ?HM, ?Hb, ?Hc).
      * apply IH; now rewrite ?Hr, ?HM, ?Hb, ?Hc.
    + now rewrite !paymentLoop_done by lia.
Qed.

Section Extras.

Variables (d : Date) (r M : Q) (n : Z) (e a : Q) (en : bool).

Lemma extrasLoop_O k rb cum : extrasLoop d r M n e a en O k rb cum = [].
Proof. reflexivity. Qed.

Lemma extrasLoop_paid fuel k rb cum :
  rb <= 0.01 -> extrasLoop d r M n e a en fuel k rb cum = [].
Proof.
  intros H. destruct fuel; [reflexivity|]. simpl.
  apply gtb_le in H. now rewrite H.
Qed.

Lemma extrasLoop_capped fuel k rb cum :
  (n * 2 < k)%Z -> extrasLoop d r M n e a en fuel k rb cum = [].
Proof.
  intros H. destruct fuel; [reflexivity|]. simpl.
  destruct (Z.leb_spec k (n * 2)); [lia|].
  now rewrite andb_false_r.
Qed.

Lemma extrasLoop_S fuel k rb cum :
  0.01 < rb -> (k <= n * 2)%Z ->
  extrasLoop d r M n e a en (S fuel) k rb cum =
  pushed d k (paidPrincipal r M e a en k rb) (rb * r)
    (paidTotal r M e a en k rb)
    (rb - paidPrincipal r M e a en k rb) (cum + rb * r)
  :: extrasLoop d r M n e a en fuel (k + 1)
       (rb - paidPrincipal r M e a en k rb) (cum + rb * r).
Proof.
  intros Hb Hk. simpl. apply gtb_gt in Hb. rewrite Hb.
  destruct (Z.leb_spec k (n * 2)); [|lia]. simpl.
  unfold paidPrincipal, paidTotal.
  destruct (gtb e 0), (lumpSumDue en a k); simpl;
    match goal with |- context [gtb ?x rb] => destruct (gtb x rb) end;
    reflexivity.
Qed.

(** The three ways the loop can stand at its head. *)
Lemma extrasLoop_cases fuel k rb cum :
  extrasLoop d r M n e a en (S fuel) k rb cum = [] /\
    (rb <= 0.01 \/ (n * 2 < k)%Z)
  \/ (0.01 < rb /\ (k <= n * 2)%Z).
Proof.
  destruct (Qlt_le_dec 0.01 rb) as [Hb|Hb].
  - destruct (Z.le_gt_cases k (n * 2)) as [Hk|Hk].
    + right. split; assumption.
    + left. split; [now apply extrasLoop_capped | right; assumption].
  - left. split; [now apply extrasLoop_paid | left; assumption].
Qed.

(** Fuel beyond the cap of [numberOfPayments * 2] periods is never used. *)
Lemma extrasLoop_fuel fuel k rb cum :
  (Z.to_nat (n * 2 - k + 1) <= fuel)%nat ->
  extrasLoop d r M n e a en fuel k rb cum =
  extrasLoop d r M n e a en (Z.to_nat (n * 2 - k + 1)) k rb cum.
Proof.
  revert k rb cum. induction fuel as [|fuel IH]; intros k rb cum H.
  - replace (Z.to_nat (n * 2 - k + 1)) with O by lia. reflexivity.
  - destruct (extrasLoop_cases fuel k rb cum) as [[E [Hb|Hk]]|[Hb Hk]].
    + now rewrite !extrasLoop_paid.
    + now rewrite !extrasLoop_capped.
    + replace (Z.to_nat (n * 2 - k + 1))
        with (S (Z.to_nat (n * 2 - (k + 1) + 1))) by lia.
      rewrite !extrasLoop_S by assumption. f_equal. apply IH. lia.
Qed.

Lemma extrasLoop_length fuel k rb cum :
  (Z.of_nat (List.length (extrasLoop d r M n e a en fuel k rb cum))
   <= Z.max 0 (n * 2 - k + 1))%Z.
Proof.
  revert k rb cum. induction fuel as [|fuel IH]; intros k rb cum.
  - simpl. lia.
  - destruct (extrasLoop_cases fuel k rb cum) as [[E _]|[Hb Hk]].
    + rewrite E. simpl. lia.
    + rewrite extrasLoop_S by assumption.
      specialize (IH (k + 1)%Z (rb - paidPrincipal r M e a en k rb)
                     (cum + rb * r)).
      simpl List.length. lia.
Qed.

End Extras.

Lemma if_gtb_comp (x x' y y' u u' v v' : Q) :
  x == x' -> y == y' -> u == u' -> v == v' ->
  (if gtb x y then u else v) == (if gtb x' y' then u' else v').
Proof.
  intros Hx Hy Hu Hv. rewrite (gtb_comp _ _ Hx _ _ Hy).
  destruct (gtb x' y'); assumption.
Qed.

#[export] Instance paidPrincipal_comp r M e a en k :
  Proper (Qeq ==> Qeq) (paidPrincipal r M e a en k).
Proof.
  intros rb rb' Hb. unfold paidPrincipal. cbv zeta.
  apply if_gtb_comp; try assumption;
    destruct (lumpSumDue en a k), (gtb e 0); now rewrite Hb.
Qed.

#[export] Instance paidTotal_comp r M e a en k :
  Proper (Qeq ==> Qeq) (paidTotal r M e a en k).
Proof.
  intros rb rb' Hb. unfold paidTotal. cbv zeta.
  apply if_gtb_comp; try assumption; try reflexivity;
    try (now rewrite Hb);
    destruct (lumpSumDue en a k), (gtb e 0); now rewrite Hb.
Qed.

Lemma extrasLoop_comp d r M n e a en fuel : forall k rb rb' cum cum',
  rb == rb' -> cum == cum' ->
  extrasLoop d r M n e a en fuel k rb cum =
  extrasLoop d r M n e a en fuel k rb' cum'.
Proof.
  induction fuel as [|fuel IH]; intros k rb rb' cum cum' Hb Hc.
  - reflexivity.
  - destruct (extrasLoop_cases d r M n e a en fuel k rb cum)
      as [[E [H|H]]|[H1 H2]].
    + rewrite !extrasLoop_paid; [reflexivity | now rewrite <- Hb | assumption].
    + now rewrite !extrasLoop_capped.
    + rewrite !extrasLoop_S; try assumption; [|now rewrite <- Hb].
      f_equal.
      * apply pushed_comp; now rewrite ?Hb, ?Hc.
      * apply IH; now rewrite ?Hb, ?Hc.
Qed.

(** Running with the state in lowest terms gives the same rows. *)
Lemma paymentLoop_reduced d r M n fuel : forall i rb cum,
  paymentLoop d r M n fuel i rb cum = paymentLoopR d r M n fuel i rb cum.
Proof.
  induction fuel as [|fuel IH]; intros i rb cum.
  - reflexivity.
  - destruct (Z.le_gt_cases i n) as [Hi|Hi].
    + rewrite paymentLoop_S by assumption. cbn [paymentLoopR].
      destruct (Z.leb_spec i n); [|lia]. f_equal.
      * apply pushed_comp; try reflexivity; symmetry; apply Qred_correct.
      * rewrite <- IH.
        apply paymentLoop_comp; try reflexivity; symmetry; apply Qred_correct.
    + rewrite paymentLoop_done by lia. cbn [paymentLoopR].
      destruct (Z.leb_spec i n); [lia | reflexivity].
Qed.

Lemma extrasLoop_reduced d r M n e a en fuel : forall k rb cum,
  extrasLoop d r M n e a en fuel k rb cum =
  extrasLoopR d r M n e a en fuel k rb cum.
Proof.
  induction fuel as [|fuel IH]; intros k rb cum.
  - reflexivity.
  - destruct (extrasLoop_cases d r M n e a en fuel k rb cum)
      as [[E [H|H]]|[H1 H2]].
    + rewrite E. cbn [extrasLoopR]. apply gtb_le in H. now rewrite H.
    + rewrite E. cbn [extrasLoopR]. destruct (Z.leb_spec k (n * 2)); [lia|].
      now rewrite andb_false_r.
    + rewrite extrasLoop_S by assumption. cbn [extrasLoopR].
      apply gtb_gt in H1. rewrite H1.
      destruct (Z.leb_spec k (n * 2)); [|lia]. cbn [andb]. f_equal.
      * apply pushed_comp; try reflexivity; symmetry; apply Qred_correct.
      * rewrite <- IH.
        apply extrasLoop_comp; symmetry; apply Qred_correct.
Qed.

(** The generators, in the form that evaluates. *)
Lemma generatePaymentSchedule_run now P rate years :
  generatePaymentSchedule now P rate years =
  paymentLoopR now (Qred (rate / 100 / 12))
    (Qred (calculateMonthlyPayment P rate years))
    (years * 12) (Z.to_nat (years * 12)) 1 P 0.
Proof.
  unfold generatePaymentSchedule. rewrite <- paymentLoop_reduced.
  apply paymentLoop_comp; try reflexivity; symmetry; apply Qred_correct.
Qed.

Lemma extrasLoop_rate_comp d r r' M M' n e a en fuel : forall k rb cum,
  r == r' -> M == M' ->
  extrasLoop d r M n e a en fuel k rb cum =
  extrasLoop d r' M' n e a en fuel k rb cum.
Proof.
  induction fuel as [|fuel IH]; intros k rb cum Hr HM.
  - reflexivity.
  - destruct (extrasLoop_cases d r M n e a en fuel k rb cum)
      as [[E [H|H]]|[H1 H2]].
    + now rewrite !extrasLoop_paid.
    + now rewrite !extrasLoop_capped.
    + rewrite !extrasLoop_S by assumption.
      assert (Ep : paidPrincipal r M e a en k rb ==
                   paidPrincipal r' M' e a en k rb).
      { unfold paidPrincipal. cbv zeta.
        apply if_gtb_comp; try reflexivity;
          destruct (lumpSumDue en a k), (gtb e 0); now rewrite Hr, HM. }
      assert (Et : paidTotal r M e a en k rb ==
                   paidTotal r' M' e a en k rb).
      { unfold paidTotal. cbv zeta.
        apply if_gtb_comp; try reflexivity; try (now rewrite Hr);
          destruct (lumpSumDue en a k), (gtb e 0);
          now rewrite ?Hr, ?HM. }
      rewrite (extrasLoop_comp d r M n e a en fuel (k + 1)
                 (rb - paidPrincipal r M e a en k rb)
                 (rb - paidPrincipal r' M' e a en k rb)
                 (cum + rb * r) (cum + rb * r'))
        by (now rewrite ?Ep, ?Hr).
      rewrite IH by assumption. f_equal.
      apply pushed_comp; now rewrite ?Ep, ?Et, ?Hr.
Qed.

Lemma generateScheduleWithExtras_run now P rate years e a en :
  generateScheduleWithExtras now P rate years e a en =
  extrasLoopR now (Qred (rate / 100 / 12))
    (Qred (calculateMonthlyPayment P rate years))
    (years * 12) e a en (Z.to_nat (years * 12 * 2)) 1 P 0.
Proof.
  unfold generateScheduleWithExtras. rewrite <- extrasLoop_reduced.
  apply extrasLoop_rate_comp; symmetry; apply Qred_correct.
Qed.

End LoopFacts.

(** ** Annuity arithmetic *)

Module AnnuityFacts.

Import Js JsFacts Mortgage Amortization.

Section Rate.

Variable r : Q.
Hypothesis Hr : 0 <= r.

Local Abbreviation pw m := ((1 + r) ^ Z.of_nat m).

Lemma pw_S m : pw (S m) == (1 + r) * pw m.
Proof.
  rewrite Nat2Z.inj_succ. unfold Z.succ.
  rewrite Qpower_plus by lra. rewrite Qpower_1_r. ring.
Qed.

Lemma pw_ge1 m : 1 <= pw m.
Proof.
  induction m as [|m IH].
  - simpl. lra.
  - rewrite pw_S. nra.
Qed.

Lemma geom_S m : geom (1 + r) (S m) == geom (1 + r) m + pw m.
Proof. reflexivity. Qed.

Lemma geom_nonneg m : 0 <= geom (1 + r) m.
Proof.
  induction m as [|m IH].
  - simpl. lra.
  - rewrite geom_S. pose proof (pw_ge1 m). lra.
Qed.

Lemma geom_pos m : 0 < geom (1 + r) (S m).
Proof.
  rewrite geom_S. pose proof (pw_ge1 m). pose proof (geom_nonneg m). lra.
Qed.

(** [r * (1 + q + ... + q^(m-1)) = q^m - 1]. *)
Lemma r_geom m : r * geom (1 + r) m == pw m - 1.
Proof.
  induction m as [|m IH].
  - simpl. ring.
  - rewrite geom_S, pw_S.
    setoid_replace (r * (geom (1 + r) m + pw m))
      with (r * geom (1 + r) m + r * pw m) by ring.
    rewrite IH. ring.
Qed.

Lemma geom_1 m : r == 0 -> geom (1 + r) m == inject_Z (Z.of_nat m).
Proof.
  intros E. induction m as [|m IH].
  - reflexivity.
  - rewrite geom_S, IH.
    assert (E1 : pw m == 1).
    { assert (H1 : 1 + r == 1) by lra.
      rewrite H1. apply Qpower_1. }
    rewrite E1, Nat2Z.inj_succ. unfold Z.succ. rewrite inject_Z_plus.
    reflexivity.
Qed.

Section Payment.

Variable M : Q.
Hypothesis HM : 0 < M.

(** The interest due never reaches the payment. *)
Lemma owed_interest m rb : owed r M m rb -> rb * r < M.
Proof.
  unfold owed. intros H.
  pose proof (pw_ge1 m) as Hp. pose proof (r_geom m) as Hg.
  assert (E : rb * r * pw m == M * (pw m - 1)).
  { rewrite <- Hg.
    setoid_replace (rb * r * pw m) with (r * (rb * pw m)) by ring.
    rewrite H. ring. }
  nra.
Qed.

Lemma carried_nonneg rb : 0 <= carried r M rb.
Proof.
  unfold carried. destruct (ltb _ _) eqn:E.
  - lra.
  - apply ltb_ge in E. lra.
Qed.

End Payment.

End Rate.

(** *** The payment formula *)

Section Loan.

Variables (P rate : Q) (years : Z).
Hypothesis HP : 0 < P.
Hypothesis Hrate : 0 <= rate.
Hypothesis Hyears : (0 < years)%Z.

Let r := rate / 100 / 12.
Let M := calculateMonthlyPayment P rate years.

Lemma rate_monthly_nonneg : 0 <= rate / 100 / 12.
Proof using Hrate. qdiv. lra. Qed.

(** The formula's payment is the one that amortises [P] in
    [years * 12] periods. *)
Lemma payment_owed :
  owed (rate / 100 / 12) (calculateMonthlyPayment P rate years)
       (Z.to_nat (years * 12)) P.
Proof using HP Hrate Hyears.
  pose proof rate_monthly_nonneg as Hr. fold r in Hr |- *.
  unfold owed, calculateMonthlyPayment. fold r.
  destruct (Z.to_nat (years * 12)) as [|m] eqn:En; [lia|].
  rewrite <- En. rewrite Z2Nat.id by lia.
  destruct (eqb rate 0) eqn:E.
  - apply eqb_eq in E.
    assert (E0 : r == 0) by (unfold r; qdiv; lra).
    rewrite (geom_1 r Hr (Z.to_nat (years * 12)) E0). rewrite Z2Nat.id by lia.
    assert (E1 : 1 + r == 1) by lra.
    rewrite E1, Qpower_1.
    assert (~ inject_Z (years * 12) == 0).
    { intros C.
      assert (years * 12 = 0)%Z by (apply inject_Z_injective; exact C).
      lia. }
    field. assumption.
  - apply eqb_neq in E.
    assert (Hr0 : 0 < r) by (unfold r; qdiv; lra).
    unfold Math_pow.
    pose proof (r_geom r Hr (Z.to_nat (years * 12))) as Hg.
    rewrite Z2Nat.id in Hg by lia.
    pose proof (geom_pos r Hr m) as Hgp. rewrite <- En in Hgp.
    set (g := geom (1 + r) (Z.to_nat (years * 12))) in *.
    set (p := (1 + r) ^ (years * 12)) in *.
    assert (Hp : p - 1 == r * g) by (rewrite Hg; ring).
    rewrite Hp. field. split; lra.
Qed.

Lemma payment_pos : 0 < calculateMonthlyPayment P rate years.
Proof using HP Hrate Hyears.
  pose proof rate_monthly_nonneg as Hr.
  pose proof payment_owed as H. unfold owed in H.
  destruct (Z.to_nat (years * 12)) as [|m] eqn:En; [lia|].
  pose proof (geom_pos _ Hr m). pose proof (pw_ge1 _ Hr (S m)).
  assert (0 < P * (1 + rate / 100 / 12) ^ Z.of_nat (S m)) by nra.
  rewrite H in *. nra.
Qed.

End Loan.

End AnnuityFacts.

(** ** The plain schedule *)

Module PlainFacts.

Import Js JsFacts JsDate Mortgage Amortization LoopFacts AnnuityFacts.

Section Plain.

Variables (d : Date) (r M : Q) (n : Z).
Hypothesis Hr : 0 <= r.
Hypothesis HM : 0 < M.

(** Every row of the plain schedule shows a balance that is zero or at
    least one cent. *)
Lemma paymentLoop_balance fuel : forall i rb cum,
  Forall (fun e => PaymentScheduleItem.remainingBalance e == 0 \/
                   0.01 <= PaymentScheduleItem.remainingBalance e)
         (paymentLoop d r M n fuel i rb cum).
Proof.
  induction fuel as [|fuel IH]; intros i rb cum.
  - constructor.
  - destruct (Z.le_gt_cases i n) as [Hi|Hi].
    + rewrite paymentLoop_S by assumption. constructor; [|apply IH].
      simpl. unfold carried. destruct (ltb _ _) eqn:E.
      * left. apply round2_0.
      * right. apply ltb_ge in E. now apply round2_cent.
    + rewrite paymentLoop_done by lia. constructor.
Qed.

End Plain.

End PlainFacts.

(** * The specification's claims *)

Import PrimFloat.
Local Set Warnings "-inexact-float".
Import Js JsFacts JsDate Mortgage Amortization LoopFacts AnnuityFacts PlainFacts.

(** ** Schedules that end above zero *)

(** C1 at a failing input.  A loan of 1000 at 12% over one year with 418.66
    extra per month.  What is left after the second payment is 0.0073...:
    below one cent, and not zero.  The loop of [generateScheduleWithExtras]
    stops there (the balance is not above one cent) without snapping it to
    zero, and the schedule ends on a row that shows a remaining balance of
    0.01. *)
Lemma C1_extras_schedule_ends_above_zero :
  let schedule :=
    generateScheduleWithExtras (mkDate 2024 0 15 0) 1000 12 1 418.66 0 false in
  let monthlyInterestRate := 12 / 100 / 12 in
  let baseMonthlyPayment := calculateMonthlyPayment 1000 12 1 in
  let left1 :=
    1000 - (baseMonthlyPayment - 1000 * monthlyInterestRate + 418.66) in
  let left2 :=
    left1 - (baseMonthlyPayment - left1 * monthlyInterestRate + 418.66) in
  0.005 < left2 < 0.01 /\
  List.length schedule = 2%nat /\
  exists first final,
    schedule = [first; final] /\
    PaymentScheduleItem.paymentNumber final = 2%Z /\
    PaymentScheduleItem.remainingBalance final = round2 left2 /\
    PaymentScheduleItem.remainingBalance final == 0.01 /\
    ~ PaymentScheduleItem.remainingBalance final == 0.
Proof.
  cbv zeta. rewrite generateScheduleWithExtras_run.
  split; [split; vm_compute; reflexivity|].
  split; [vm_compute; reflexivity|].
  eexists _, _.
  split; [vm_compute; reflexivity|].
  split; [reflexivity|]. split; [vm_compute; reflexivity|].
  split; [reflexivity | discriminate].
Qed.

(** The correctly rounded value of [Math.pow(1 + 50 / 100 / 12, 600)]. *)
Lemma Math_pow_50_600 :
  Binary64.Math_pow (1 + 50 / 100 / 12)%float (50 * 12) =
  0x1.432f3027af302p+35%float.
Proof. vm_compute. reflexivity. Qed.

(** In binary64 the plain schedule can end above zero too.  For 7500000
    at 50% over 50 years the rounding errors of 600 periods, each carried
    forward at 4.17% a month, leave 7.03 after the last payment: too much
    for the snap to zero of lines 148-151, and [generatePaymentSchedule]
    stops there.  The outcome is the same for every [Math.pow] within three
    places of the correctly rounded power. *)
Lemma binary64_plain_schedule_ends_above_zero :
  Forall
    (fun d =>
       let schedule :=
         Binary64.generatePaymentSchedule (Binary64.Math_pow_off d)
           (mkDate 2024 0 15 0) 7500000%float 50%float 50 in
       List.length schedule = 600%nat /\
       option_map Binary64.PaymentScheduleItem.remainingBalance
         (nth_error schedule 599) = Some 7.03%float)
    [-3; -2; -1; 0; 1; 2; 3]%Z.
Proof.
  repeat (apply Forall_cons); [.. | apply Forall_nil];
    unfold Binary64.generatePaymentSchedule, Binary64.calculateMonthlyPayment,
      Binary64.Math_pow_off;
    cbv beta zeta; rewrite Math_pow_50_600; vm_compute; split; reflexivity.
Qed.

(** ** Validation *)

Lemma pushIf_nil (cond : bool) (msg : string) (errors : list string) :
  pushIf cond msg errors = [] <-> cond = false /\ errors = [].
Proof.
  unfold pushIf. destruct cond.
  - split; [|intros [C _]; discriminate].
    intros H. destruct errors; discriminate.
  - tauto.
Qed.

(** [validateRefinanceInputs] reports nothing exactly when every rule holds. *)
Lemma validateRefinanceInputs_nil (inputs : RefinanceInputs.t) :
  validateRefinanceInputs inputs = [] <->
  (0 < RefinanceInputs.currentLoanAmount inputs /\
   0 <= RefinanceInputs.currentInterestRate inputs <= 50 /\
   (0 < RefinanceInputs.currentRemainingYears inputs <= 50)%Z) /\
  (0 < RefinanceInputs.newLoanAmount inputs /\
   0 <= RefinanceInputs.newInterestRate inputs <= 50 /\
   (0 < RefinanceInputs.newLoanTermYears inputs <= 50)%Z) /\
  0 <= RefinanceInputs.closingCosts inputs /\
  0 <= RefinanceInputs.extraMonthlyPayment inputs /\
  0 <= RefinanceInputs.annualExtraPayment inputs.
Proof.
  unfold validateRefinanceInputs. cbv zeta.
  rewrite !pushIf_nil, !orb_false_iff, !ltb_ge, !gtb_le.
  rewrite !Z.leb_gt, !Z.gtb_ltb, !Z.ltb_ge.
  assert (Hle : forall x, Qle_bool x 0 = false <-> 0 < x).
  { intros x. split.
    - intros H. apply Qnot_le_lt. intros C. apply Qle_bool_iff in C. congruence.
    - intros H. destruct (Qle_bool x 0) eqn:E; [|reflexivity].
      apply Qle_bool_iff in E. lra. }
  rewrite !Hle. intuition.
Qed.

(** C3.  The break-even time of [calculateRefinanceComparison] is
    [Math.ceil(closingCosts / monthlySavings)] when the monthly savings are
    positive, so the divisor is never zero, and the sentinel 999 otherwise;
    on inputs that pass [validateRefinanceInputs] it is never negative. *)
Theorem C3_break_even_months (now : Date) (inputs : RefinanceInputs.t) :
  let result := calculateRefinanceComparison now inputs in
  let monthlySavings := RefinanceResults.monthlySavings result in
  (0 < monthlySavings ->
     ~ monthlySavings == 0 /\
     RefinanceResults.breakEvenMonths result =
     inject_Z (Qceiling (RefinanceInputs.closingCosts inputs / monthlySavings))) /\
  (monthlySavings <= 0 -> RefinanceResults.breakEvenMonths result = 999) /\
  (validateRefinanceInputs inputs = [] ->
     0 <= RefinanceResults.breakEvenMonths result).
Proof.
  intros result monthlySavings.
  assert (E : RefinanceResults.breakEvenMonths result =
              if gtb monthlySavings 0
              then Math_ceil (RefinanceInputs.closingCosts inputs / monthlySavings)
              else 999) by reflexivity.
  split; [|split].
  - intros H. split; [lra|]. rewrite E.
    apply gtb_gt in H. now rewrite H.
  - intros H. rewrite E. apply gtb_le in H. now rewrite H.
  - intros V. apply validateRefinanceInputs_nil in V.
    destruct V as (_ & _ & Hc & _). rewrite E.
    destruct (gtb monthlySavings 0) eqn:G.
    + apply gtb_gt in G. unfold Math_ceil.
      eapply Qle_trans; [|apply Qle_ceiling].
      apply Qle_shift_div_l; [assumption|]. lra.
    + lra.
Qed.

Lemma C3_witness :
  let saving :=
    RefinanceInputs.mk 120000 0 10 120 120000 0 20 5000 0 0 0 false in
  let costly :=
    RefinanceInputs.mk 120000 0 20 240 120000 0 10 5000 0 0 0 false in
  let now := mkDate 2024 0 15 0 in
  (RefinanceResults.breakEvenMonths (calculateRefinanceComparison now saving)
   = inject_Z
       (Qceiling
          (5000 /
           RefinanceResults.monthlySavings
             (calculateRefinanceComparison now saving))) /\
   0 <= RefinanceResults.breakEvenMonths
          (calculateRefinanceComparison now saving)) /\
  RefinanceResults.breakEvenMonths (calculateRefinanceComparison now costly)
  = 999.
Proof.
  intros saving costly now.
  destruct (C3_break_even_months now saving) as (Hpos & _ & Hvalid).
  destruct (C3_break_even_months now costly) as (_ & Hneg & _).
  split; [split|].
  - apply Hpos. lazy. reflexivity.
  - apply Hvalid. vm_compute. reflexivity.
  - apply Hneg. lazy. discriminate.
Defined.

(** C7.  In [calculateRefinanceComparison] every new-loan figure is computed
    from the principal [newLoanAmount + cashOut], and [totalSavings] is
    [totalInterestSavings - closingCosts]: the cash-out is not added back, so
    the formula that adds it overstates [totalSavings] by exactly [cashOut]. *)
Theorem C7_cash_out_in_principal_only (now : Date) (inputs : RefinanceInputs.t) :
  let result := calculateRefinanceComparison now inputs in
  let newMortgageInputs :=
    MortgageInputs.loan
      (RefinanceInputs.newLoanAmount inputs + RefinanceInputs.cashOut inputs)
      (RefinanceInputs.newInterestRate inputs)
      (RefinanceInputs.newLoanTermYears inputs) in
  let withExtras :=
    calculateMortgageWithExtras now newMortgageInputs
      (RefinanceInputs.extraMonthlyPayment inputs)
      (RefinanceInputs.annualExtraPayment inputs)
      (RefinanceInputs.enableAnnualPayment inputs) in
  RefinanceResults.newMortgage result =
    calculateMortgageDetails now newMortgageInputs /\
  RefinanceResults.newMortgageWithExtras result =
    MortgageResults.mk
      (MortgageWithExtrasResults.monthlyPayment withExtras)
      (MortgageWithExtrasResults.monthlyPayment withExtras)
      (MortgageWithExtrasResults.totalInterest withExtras)
      (MortgageWithExtrasResults.totalPayments withExtras)
      (MortgageWithExtrasResults.paymentSchedule withExtras) /\
  RefinanceResults.monthlySavings result =
    MortgageResults.monthlyPayment (RefinanceResults.currentMortgage result) -
    MortgageWithExtrasResults.monthlyPayment withExtras /\
  RefinanceResults.totalInterestSavings result =
    MortgageResults.totalInterest (RefinanceResults.currentMortgage result) -
    MortgageWithExtrasResults.totalInterest withExtras /\
  RefinanceResults.totalSavings result =
    RefinanceResults.totalInterestSavings result -
    RefinanceInputs.closingCosts inputs /\
  RefinanceResults.totalInterestSavings result -
    RefinanceInputs.closingCosts inputs + RefinanceInputs.cashOut inputs -
    RefinanceResults.totalSavings result == RefinanceInputs.cashOut inputs.
Proof.
  intros result newMortgageInputs withExtras.
  repeat split; try reflexivity.
  assert (E : RefinanceResults.totalSavings result =
              RefinanceResults.totalInterestSavings result -
              RefinanceInputs.closingCosts inputs) by reflexivity.
  rewrite E. ring.
Qed.

(** ** Zero-rate loans *)

Lemma paymentLoop_zero_rate d r M n fuel : forall i rb cum,
  r == 0 ->
  Forall (fun e => PaymentScheduleItem.interestPayment e == 0 /\
                   PaymentScheduleItem.principalPayment e = round2 M /\
                   PaymentScheduleItem.totalPayment e = round2 M)
         (paymentLoop d r M n fuel i rb cum).
Proof.
  induction fuel as [|fuel IH]; intros i rb cum Hr.
  - constructor.
  - destruct (Z.le_gt_cases i n) as [Hi|Hi].
    + rewrite paymentLoop_S by assumption. constructor; [|now apply IH].
      simpl. split; [|split].
      * rewrite (round2_comp (rb * r) 0) by (rewrite Hr; ring).
        apply round2_0.
      * apply round2_comp. rewrite Hr. ring.
      * reflexivity.
    + rewrite paymentLoop_done by lia. constructor.
Qed.

(** C5.  For a positive loan amount at an annual rate of zero over a
    positive whole number of years, [calculateMonthlyPayment] returns
    [loanAmount / (loanTermYears * 12)];
    every row of the schedule -- the last one included -- shows no interest
    and one and the same principal payment, which is also the total payment
    of the row and is that quotient to the cent. *)
Theorem C5_zero_rate_schedule
    (now : Date) (loanAmount annualInterestRate : Q) (loanTermYears : Z) :
  0 < loanAmount -> annualInterestRate == 0 -> (0 < loanTermYears)%Z ->
  calculateMonthlyPayment loanAmount annualInterestRate loanTermYears =
    loanAmount / inject_Z (loanTermYears * 12) /\
  exists constant,
    Qabs (constant - loanAmount / inject_Z (loanTermYears * 12)) < 0.01 /\
    Forall
      (fun e =>
         PaymentScheduleItem.interestPayment e == 0 /\
         PaymentScheduleItem.principalPayment e = constant /\
         PaymentScheduleItem.totalPayment e = constant)
      (generatePaymentSchedule now loanAmount annualInterestRate loanTermYears).
Proof.
  intros _ H0 _.
  assert (E : calculateMonthlyPayment loanAmount annualInterestRate loanTermYears
              = loanAmount / inject_Z (loanTermYears * 12)).
  { unfold calculateMonthlyPayment. apply eqb_eq in H0. now rewrite H0. }
  split; [exact E|].
  exists (round2 (loanAmount / inject_Z (loanTermYears * 12))). split.
  - pose proof (round2_bounds (loanAmount / inject_Z (loanTermYears * 12)))
      as [B1 B2].
    apply Qabs_case; intros _; lra.
  - unfold generatePaymentSchedule. rewrite E.
    apply paymentLoop_zero_rate. rewrite H0. reflexivity.
Qed.

Lemma C5_witness :
  calculateMonthlyPayment 122907 0 10 = 122907 / inject_Z (10 * 12) /\
  exists constant,
    Qabs (constant - 122907 / inject_Z (10 * 12)) < 0.01 /\
    Forall
      (fun e =>
         PaymentScheduleItem.interestPayment e == 0 /\
         PaymentScheduleItem.principalPayment e = constant /\
         PaymentScheduleItem.totalPayment e = constant)
      (generatePaymentSchedule (mkDate 2024 0 15 0) 122907 0 10).
Proof.
  apply (C5_zero_rate_schedule (mkDate 2024 0 15 0) 122907 0 10).
  - reflexivity.
  - reflexivity.
  - reflexivity.
Defined.

(** ** The annual lump sum *)

Lemma lumpSumDue_true (en : bool) (a : Q) (k : Z) :
  lumpSumDue en a k = true <->
  en = true /\ 0 < a /\ Z.rem k 12 = 1%Z /\ (1 < k)%Z.
Proof.
  unfold lumpSumDue. rewrite !andb_true_iff, gtb_gt, Z.eqb_eq, Z.gtb_ltb, Z.ltb_lt.
  tauto.
Qed.

Lemma paidPrincipal_le r M e a en k rb : paidPrincipal r M e a en k rb <= rb.
Proof.
  unfold paidPrincipal. cbv zeta.
  match goal with |- context [gtb ?x rb] => destruct (gtb x rb) eqn:E end.
  - lra.
  - now apply gtb_le in E.
Qed.

Lemma paidPrincipal_no_lump r M e a en k rb :
  lumpSumDue en a k = false ->
  paidPrincipal r M e a en k rb = paidPrincipal r M e 0 false k rb /\
  paidTotal r M e a en k rb = paidTotal r M e 0 false k rb.
Proof.
  intros H. unfold paidPrincipal, paidTotal. rewrite H.
  change (lumpSumDue false 0 k) with false. split; reflexivity.
Qed.

Lemma extrasLoop_balance_nonneg d r M n e a en fuel : forall k rb cum,
  Forall (fun row => 0 <= PaymentScheduleItem.remainingBalance row)
         (extrasLoop d r M n e a en fuel k rb cum).
Proof.
  induction fuel as [|fuel IH]; intros k rb cum.
  - constructor.
  - destruct (extrasLoop_cases d r M n e a en fuel k rb cum) as [[E _]|[Hb Hk]].
    + rewrite E. constructor.
    + rewrite extrasLoop_S by assumption. constructor; [|apply IH].
      simpl. apply round2_nonneg.
      pose proof (paidPrincipal_le r M e a en k rb). lra.
Qed.

(** The lump-sum test holds at exactly the periods 13, 25, 37, ... *)
Lemma lumpSumDue_periods (en : bool) (a : Q) (k : Z) :
  lumpSumDue en a k = true <->
  en = true /\ 0 < a /\ (1 < k)%Z /\ (k mod 12 = 1)%Z.
Proof.
  rewrite lumpSumDue_true. split.
  - intros (He & Ha & Hrem & Hk).
    rewrite Z.rem_mod_nonneg in Hrem by lia. tauto.
  - intros (He & Ha & Hk & Hmod).
    rewrite Z.rem_mod_nonneg by lia. tauto.
Qed.

Lemma lumpSumDue_from_13 (en : bool) (a : Q) (k : Z) :
  lumpSumDue en a k = true -> (13 <= k)%Z.
Proof.
  intros H. apply lumpSumDue_periods in H. destruct H as (_ & _ & Hk & Hmod).
  pose proof (Z.div_mod k 12 ltac:(lia)) as D.
  assert (0 < k / 12)%Z; [|lia].
  destruct (Z.le_gt_cases (k / 12) 0); [|assumption].
  assert (0 <= k / 12)%Z by (apply Z.div_pos; lia). lia.
Qed.

(** Up to period 12 the rows do not depend on the lump-sum settings. *)
Lemma extrasLoop_before_lump d r M n e a en fuel : forall j k rb cum,
  (Z.of_nat j + k <= 13)%Z ->
  firstn j (extrasLoop d r M n e a en fuel k rb cum) =
  firstn j (extrasLoop d r M n e 0 false fuel k rb cum).
Proof.
  induction fuel as [|fuel IH]; intros j k rb cum Hj.
  - reflexivity.
  - destruct j as [|j]; [reflexivity|].
    destruct (extrasLoop_cases d r M n e a en fuel k rb cum)
      as [[E [H|H]]|[Hb Hc]].
    + now rewrite !extrasLoop_paid.
    + now rewrite !extrasLoop_capped.
    + rewrite !extrasLoop_S by assumption.
      assert (Hl : lumpSumDue en a k = false).
      { destruct (lumpSumDue en a k) eqn:L; [|reflexivity].
        apply lumpSumDue_from_13 in L. lia. }
      destruct (paidPrincipal_no_lump r M e a en k rb Hl) as [Ep Et].
      rewrite Ep, Et. cbn [firstn]. f_equal. apply IH. lia.
Qed.

(** At a period where the lump sum is due, the balance left is the balance
    that would be left without it, less the lump sum, to the cent -- or zero
    when the lump sum exceeds what is left. *)
Lemma lump_sum_applied r M e a en k rb :
  lumpSumDue en a k = true ->
  round2 (rb - paidPrincipal r M e 0 false k rb) - a - 0.01
    <= round2 (rb - paidPrincipal r M e a en k rb) /\
  (round2 (rb - paidPrincipal r M e a en k rb)
     <= round2 (rb - paidPrincipal r M e 0 false k rb) - a + 0.01 \/
   round2 (rb - paidPrincipal r M e a en k rb) == 0).
Proof.
  intros L. pose proof L as L'. apply lumpSumDue_true in L'.
  destruct L' as (_ & Ha & _).
  unfold paidPrincipal. rewrite L.
  change (lumpSumDue false 0 k) with false. cbv zeta iota.
  set (p1 := if gtb e 0 then M - rb * r + e else M - rb * r).
  destruct (gtb (p1 + a) rb) eqn:G.
  - assert (Z0 : round2 (rb - rb) == 0).
    { rewrite (round2_comp (rb - rb) 0) by ring. apply round2_0. }
    split; [|right; exact Z0]. rewrite Z0.
    apply gtb_gt in G.
    destruct (gtb p1 rb) eqn:G1.
    + rewrite Z0. lra.
    + pose proof (round2_bounds (rb - p1)) as [_ B]. lra.
  - apply gtb_le in G.
    assert (G1 : gtb p1 rb = false) by (apply gtb_le; lra).
    rewrite G1.
    pose proof (round2_bounds (rb - p1)) as [B1 B2].
    pose proof (round2_bounds (rb - (p1 + a))) as [B3 B4].
    split; [lra | left; lra].
Qed.

(** C6.  The lump-sum test of [generateScheduleWithExtras] succeeds at
    exactly the periods [k > 1] with [k mod 12 = 1] (when the annual payment
    is enabled and positive): never before period 13, and at period 13.  The
    first twelve rows of a schedule are those of the schedule without lump
    sum.  From any state in which the loop runs, the row of a period where
    the lump sum is not due is the row without lump sum; where it is due,
    the row leaves the balance that would be left without it less the lump
    sum, to the cent, or zero.  No row shows a negative remaining balance. *)
Theorem C6_lump_sum_periods
    (now : Date) (loanAmount annualInterestRate : Q) (loanTermYears : Z)
    (extraMonthlyPayment annualExtraPayment : Q) (enableAnnualPayment : bool) :
  (forall k,
     lumpSumDue enableAnnualPayment annualExtraPayment k = true <->
     enableAnnualPayment = true /\ 0 < annualExtraPayment /\
     (1 < k)%Z /\ (k mod 12 = 1)%Z) /\
  (forall k,
     lumpSumDue enableAnnualPayment annualExtraPayment k = true -> (13 <= k)%Z) /\
  (enableAnnualPayment = true -> 0 < annualExtraPayment ->
   lumpSumDue enableAnnualPayment annualExtraPayment 13 = true) /\
  firstn 12
    (generateScheduleWithExtras now loanAmount annualInterestRate loanTermYears
       extraMonthlyPayment annualExtraPayment enableAnnualPayment) =
  firstn 12
    (generateScheduleWithExtras now loanAmount annualInterestRate loanTermYears
       extraMonthlyPayment 0 false) /\
  (forall r M fuel k rb cum,
     0.01 < rb -> (k <= loanTermYears * 12 * 2)%Z ->
     exists withLump rest noLump rest0,
       extrasLoop now r M (loanTermYears * 12) extraMonthlyPayment
         annualExtraPayment enableAnnualPayment (S fuel) k rb cum
       = withLump :: rest /\
       extrasLoop now r M (loanTermYears * 12) extraMonthlyPayment
         0 false (S fuel) k rb cum
       = noLump :: rest0 /\
       PaymentScheduleItem.paymentNumber withLump = k /\
       0 <= PaymentScheduleItem.remainingBalance withLump /\
       (lumpSumDue enableAnnualPayment annualExtraPayment k = false ->
        withLump = noLump) /\
       (lumpSumDue enableAnnualPayment annualExtraPayment k = true ->
        PaymentScheduleItem.remainingBalance noLump - annualExtraPayment - 0.01
          <= PaymentScheduleItem.remainingBalance withLump /\
        (PaymentScheduleItem.remainingBalance withLump
           <= PaymentScheduleItem.remainingBalance noLump
              - annualExtraPayment + 0.01 \/
         PaymentScheduleItem.remainingBalance withLump == 0))) /\
  Forall (fun row => 0 <= PaymentScheduleItem.remainingBalance row)
    (generateScheduleWithExtras now loanAmount annualInterestRate loanTermYears
       extraMonthlyPayment annualExtraPayment enableAnnualPayment).
Proof.
  split; [|split; [|split; [|split; [|split]]]].
  - intros k. apply lumpSumDue_periods.
  - intros k. apply lumpSumDue_from_13.
  - intros He Ha. apply lumpSumDue_periods. repeat split; try assumption; lia.
  - unfold generateScheduleWithExtras. apply extrasLoop_before_lump. lia.
  - intros r M fuel k rb cum Hb Hk.
    rewrite !extrasLoop_S by assumption.
    do 4 eexists. split; [reflexivity|]. split; [reflexivity|].
    cbn [PaymentScheduleItem.paymentNumber
         PaymentScheduleItem.remainingBalance pushed].
    split; [reflexivity|]. split; [|split].
    + apply round2_nonneg.
      pose proof (paidPrincipal_le r M extraMonthlyPayment annualExtraPayment
                    enableAnnualPayment k rb). lra.
    + intros Hl.
      destruct (paidPrincipal_no_lump r M extraMonthlyPayment annualExtraPayment
                  enableAnnualPayment k rb Hl) as [Ep Et].
      now rewrite Ep, Et.
    + apply lump_sum_applied.
  - apply extrasLoop_balance_nonneg.
Qed.

(** A loan of 24000 at 0% over two years with a lump sum of 5000.  Twelve
    payments of 1000 leave 12000; the step of C6 at period 13 leaves the
    11000 of the row without lump sum less 5000, and row 13 of the schedule
    shows that principal payment of 6000 and the balance of 6000. *)
Lemma C6_witness :
  lumpSumDue true 5000 13 = true /\
  (exists withLump rest noLump rest0,
     extrasLoop (mkDate 2024 0 15 0) 0 1000 (2 * 12) 0 5000 true 1 13 12000 0
     = withLump :: rest /\
     extrasLoop (mkDate 2024 0 15 0) 0 1000 (2 * 12) 0 0 false 1 13 12000 0
     = noLump :: rest0 /\
     PaymentScheduleItem.paymentNumber withLump = 13%Z /\
     PaymentScheduleItem.remainingBalance withLump == 6000 /\
     PaymentScheduleItem.remainingBalance noLump == 11000) /\
  (exists row12 row13,
     nth_error
       (generateScheduleWithExtras (mkDate 2024 0 15 0) 24000 0 2 0 5000 true)
       11 = Some row12 /\
     nth_error
       (generateScheduleWithExtras (mkDate 2024 0 15 0) 24000 0 2 0 5000 true)
       12 = Some row13 /\
     PaymentScheduleItem.principalPayment row12 == 1000 /\
     PaymentScheduleItem.remainingBalance row12 == 12000 /\
     PaymentScheduleItem.paymentNumber row13 = 13%Z /\
     PaymentScheduleItem.principalPayment row13 == 6000 /\
     PaymentScheduleItem.remainingBalance row13 == 6000).
Proof.
  destruct (C6_lump_sum_periods (mkDate 2024 0 15 0) 24000 0 2 0 5000 true)
    as (_ & _ & H13 & _ & Hstep & _).
  split; [apply H13; reflexivity|]. split.
  - destruct (Hstep 0 1000 O 13%Z 12000 0)
      as (w & rest & z & rest0 & Ew & Ez & Hn & _);
      [reflexivity | discriminate |].
    exists w, rest, z, rest0.
    split; [exact Ew|]. split; [exact Ez|]. split; [exact Hn|].
    vm_compute in Ew. vm_compute in Ez.
    injection Ew as <- _. injection Ez as <- _.
    split; reflexivity.
  - rewrite generateScheduleWithExtras_run. vm_compute.
    eexists _, _. split; [reflexivity|]. split; [reflexivity|].
    repeat split.
Defined.

(** ** The clock and the schedule *)

Lemma paymentLoop_monetary d1 d2 r M n fuel : forall i rb cum,
  map monetary (paymentLoop d1 r M n fuel i rb cum) =
  map monetary (paymentLoop d2 r M n fuel i rb cum).
Proof.
  induction fuel as [|fuel IH]; intros i rb cum.
  - reflexivity.
  - destruct (Z.le_gt_cases i n) as [Hi|Hi].
    + rewrite !paymentLoop_S by assumption. simpl map. f_equal. apply IH.
    + now rewrite !paymentLoop_done by lia.
Qed.

Lemma extrasLoop_monetary d1 d2 r M n e a en fuel : forall k rb cum,
  map monetary (extrasLoop d1 r M n e a en fuel k rb cum) =
  map monetary (extrasLoop d2 r M n e a en fuel k rb cum).
Proof.
  induction fuel as [|fuel IH]; intros k rb cum.
  - reflexivity.
  - destruct (extrasLoop_cases d1 r M n e a en fuel k rb cum)
      as [[E [H|H]]|[Hb Hk]].
    + now rewrite !extrasLoop_paid.
    + now rewrite !extrasLoop_capped.
    + rewrite !extrasLoop_S by assumption. simpl map. f_equal. apply IH.
Qed.

(** C9, as the code has it.  The schedule generators read the clock, and
    the reading enters the date column only: whatever the two clock
    readings of two invocations on the same inputs, the two schedules have
    the same rows in every field other than [paymentDate]. *)
Theorem C9_clock_enters_dates_only
    (now1 now2 : Date) (loanAmount annualInterestRate : Q) (loanTermYears : Z)
    (extraMonthlyPayment annualExtraPayment : Q) (enableAnnualPayment : bool) :
  map monetary
    (generatePaymentSchedule now1 loanAmount annualInterestRate loanTermYears) =
  map monetary
    (generatePaymentSchedule now2 loanAmount annualInterestRate loanTermYears) /\
  map monetary
    (generateScheduleWithExtras now1 loanAmount annualInterestRate
       loanTermYears extraMonthlyPayment annualExtraPayment enableAnnualPayment) =
  map monetary
    (generateScheduleWithExtras now2 loanAmount annualInterestRate
       loanTermYears extraMonthlyPayment annualExtraPayment enableAnnualPayment).
Proof.
  unfold generatePaymentSchedule, generateScheduleWithExtras. split.
  - apply paymentLoop_monetary.
  - apply extrasLoop_monetary.
Qed.

(** C9 as stated fails: the same loan scheduled on 15 and on 16 January 2024
    (at the same time of day) gives different [paymentDate] strings in the
    first row, 2024-02-15 and 2024-02-16. *)
Lemma C9_counterexample :
  generatePaymentSchedule (mkDate 2024 0 15 0) 1200 0 1 <>
  generatePaymentSchedule (mkDate 2024 0 16 0) 1200 0 1.
Proof.
  intros H.
  apply (f_equal (fun s => map PaymentScheduleItem.paymentDate (firstn 1 s))) in H.
  rewrite !generatePaymentSchedule_run in H.
  vm_compute in H. discriminate H.
Qed.

(** ** Balances below one cent *)

(** C2 at a failing input.  A loan of 1006 at 0% over one year with 59.88
    extra per month: after seven payments 0.00666... is left.  The loop of
    [generateScheduleWithExtras] stops there (the balance is not above one
    cent) without snapping it to zero, and the schedule ends on a row that
    shows a remaining balance of 0.01. *)
Lemma C2_extras_schedule_ends_on_one_cent :
  let schedule :=
    generateScheduleWithExtras (mkDate 2024 0 15 0) 1006 0 1 59.88 0 false in
  List.length schedule = 7%nat /\
  exists rows final,
    schedule = rows ++ [final] /\
    PaymentScheduleItem.paymentNumber final = 7%Z /\
    PaymentScheduleItem.remainingBalance final == 0.01.
Proof.
  rewrite generateScheduleWithExtras_run. vm_compute.
  split; [reflexivity|].
  eexists [_; _; _; _; _; _], _.
  split; [reflexivity|]. split; reflexivity.
Qed.

(** ** Interest totals *)

Lemma Qabs_le_iff (x y : Q) : Qabs x <= y <-> - y <= x /\ x <= y.
Proof. apply Qabs_Qle_condition. Qed.







(** ** Extra payments against the schedule without them *)

Section Dominance.

Variables (d : Date) (r M : Q) (n : Z).
Hypothesis Hr : 0 <= r.

Lemma extraPrincipal_nonneg e a en k : 0 <= extraPrincipal e a en k.
Proof.
  unfold extraPrincipal.
  destruct (gtb e 0) eqn:G; destruct (lumpSumDue en a k) eqn:L;
    try apply gtb_gt in G; try apply lumpSumDue_true in L; lra.
Qed.

(** The principal paid is the scheduled principal plus the extras, unless
    that exceeds the balance; then it is the balance. *)
Lemma paidPrincipal_cases e a en k rb :
  paidPrincipal r M e a en k rb = rb \/
  (paidPrincipal r M e a en k rb == M - rb * r + extraPrincipal e a en k /\
   M - rb * r + extraPrincipal e a en k <= rb).
Proof.
  unfold paidPrincipal, extraPrincipal. cbv zeta.
  match goal with |- context [gtb ?x rb] => destruct (gtb x rb) eqn:O end;
    [left; reflexivity | right].
  apply gtb_le in O. revert O.
  destruct (lumpSumDue en a k); destruct (gtb e 0); intros O; split; lra.
Qed.

Lemma paidPrincipal_upper e a en k rb :
  paidPrincipal r M e a en k rb <= M - rb * r + extraPrincipal e a en k.
Proof.
  unfold paidPrincipal, extraPrincipal. cbv zeta.
  match goal with |- context [gtb ?x rb] => destruct (gtb x rb) eqn:O end.
  - apply gtb_gt in O. revert O.
    destruct (lumpSumDue en a k); destruct (gtb e 0); intros O; lra.
  - destruct (lumpSumDue en a k); destruct (gtb e 0); lra.
Qed.

Lemma paymentLoop_interest_nonneg fuel : forall i C cum,
  0 <= C ->
  Forall (fun row => 0 <= PaymentScheduleItem.interestPayment row)
         (paymentLoop d r M n fuel i C cum).
Proof using Hr.
  induction fuel as [|fuel IH]; intros i C cum HC.
  - constructor.
  - destruct (Z.le_gt_cases i n) as [Hi|Hi].
    + rewrite paymentLoop_S by assumption. constructor.
      * simpl. apply round2_nonneg. nra.
      * apply IH. apply carried_nonneg.
    + rewrite paymentLoop_done by lia. constructor.
Qed.

Lemma extrasLoop_interest_nonneg e a en fuel : forall k R cum,
  0 <= R ->
  Forall (fun row => 0 <= PaymentScheduleItem.interestPayment row)
         (extrasLoop d r M n e a en fuel k R cum).
Proof using Hr.
  induction fuel as [|fuel IH]; intros k R cum HR.
  - constructor.
  - destruct (extrasLoop_cases d r M n e a en fuel k R cum)
      as [[E _]|[Hb Hk]].
    + rewrite E. constructor.
    + rewrite extrasLoop_S by assumption. constructor.
      * simpl. apply round2_nonneg. nra.
      * apply IH. pose proof (paidPrincipal_le r M e a en k R). lra.
Qed.

(** Two runs of the loop of [generateScheduleWithExtras] on the same loan,
    the first with at least the extras of the second in every period.
    Period by period the first owes no more than the second, so it stops no
    later and its rounded interest adds up to no more. *)
Lemma more_extras_never_cost e a en e0 a0 en0 fuel : forall k R R0 cumR cum0,
  (forall j, extraPrincipal e0 a0 en0 j <= extraPrincipal e a en j) ->
  0 <= R0 -> R <= R0 ->
  (List.length (extrasLoop d r M n e a en fuel k R cumR) <=
   List.length (extrasLoop d r M n e0 a0 en0 fuel k R0 cum0))%nat /\
  reduce_sum PaymentScheduleItem.interestPayment
    (extrasLoop d r M n e a en fuel k R cumR)
  <= reduce_sum PaymentScheduleItem.interestPayment
       (extrasLoop d r M n e0 a0 en0 fuel k R0 cum0).
Proof using Hr.
  induction fuel as [|fuel IH]; intros k R R0 cumR cum0 Hx H0 HR.
  - simpl. split; [lia|]. rewrite reduce_sum_nil. lra.
  - destruct (extrasLoop_cases d r M n e a en fuel k R cumR)
      as [[E _]|[Hb Hk]].
    { rewrite E. simpl List.length. split; [lia|].
      rewrite reduce_sum_nil. apply reduce_sum_nonneg.
      now apply extrasLoop_interest_nonneg. }
    rewrite (extrasLoop_S d r M n e a en) by assumption.
    rewrite (extrasLoop_S d r M n e0 a0 en0) by (try assumption; lra).
    destruct (IH (k + 1)%Z (R - paidPrincipal r M e a en k R)
                (R0 - paidPrincipal r M e0 a0 en0 k R0)
                (cumR + R * r) (cum0 + R0 * r)) as [IHl IHs].
    + assumption.
    + pose proof (paidPrincipal_le r M e0 a0 en0 k R0). lra.
    + pose proof (paidPrincipal_le r M e0 a0 en0 k R0) as Hle.
      pose proof (paidPrincipal_upper e0 a0 en0 k R0) as Hup.
      specialize (Hx k).
      destruct (paidPrincipal_cases e a en k R) as [Hp|[Hp _]].
      * rewrite Hp. lra.
      * rewrite Hp. nra.
    + split.
      * simpl List.length. lia.
      * rewrite !reduce_sum_cons.
        cbn [PaymentScheduleItem.interestPayment pushed].
        assert (round2 (R * r) <= round2 (R0 * r)) by (apply round2_le; nra).
        lra.
Qed.

End Dominance.

(** C4, as the code has it.  For a loan with positive principal,
    non-negative rate and a positive whole number of years, the schedule of
    [generateScheduleWithExtras] -- whatever the extra payments, so in
    particular with a positive monthly extra -- is no longer and totals no
    more (rounded) interest than the schedule the same generator returns
    without the monthly extra, with the same annual lump sum or with none. *)
Theorem C4_extras_against_the_run_without_them
    (now : Date) (loanAmount annualInterestRate : Q) (loanTermYears : Z)
    (extraMonthlyPayment annualExtraPayment : Q) (enableAnnualPayment : bool) :
  0 < loanAmount -> 0 <= annualInterestRate -> (0 < loanTermYears)%Z ->
  let withExtras :=
    generateScheduleWithExtras now loanAmount annualInterestRate loanTermYears
      extraMonthlyPayment annualExtraPayment enableAnnualPayment in
  let sameLumpSum :=
    generateScheduleWithExtras now loanAmount annualInterestRate loanTermYears
      0 annualExtraPayment enableAnnualPayment in
  let noExtras :=
    generateScheduleWithExtras now loanAmount annualInterestRate loanTermYears
      0 0 false in
  ((List.length withExtras <= List.length sameLumpSum)%nat /\
   reduce_sum PaymentScheduleItem.interestPayment withExtras <=
   reduce_sum PaymentScheduleItem.interestPayment sameLumpSum) /\
  ((List.length withExtras <= List.length noExtras)%nat /\
   reduce_sum PaymentScheduleItem.interestPayment withExtras <=
   reduce_sum PaymentScheduleItem.interestPayment noExtras).
Proof.
  intros HP Hrate _ withExtras sameLumpSum noExtras.
  subst withExtras sameLumpSum noExtras.
  unfold generateScheduleWithExtras.
  pose proof (rate_monthly_nonneg _ Hrate) as Hr.
  split; apply more_extras_never_cost; try assumption; try lra.
  - intros j. unfold extraPrincipal. change (gtb 0 0) with false. cbv iota.
    destruct (gtb extraMonthlyPayment 0) eqn:G;
      [apply gtb_gt in G|]; lra.
  - intros j.
    pose proof (extraPrincipal_nonneg extraMonthlyPayment annualExtraPayment
                  enableAnnualPayment j).
    unfold extraPrincipal at 1. change (gtb 0 0) with false.
    change (lumpSumDue false 0 j) with false. cbv iota. lra.
Qed.

Lemma C4_witness :
  let withExtras :=
    generateScheduleWithExtras (mkDate 2024 0 15 0) 400000 6.5 30 200 5000 true in
  let sameLumpSum :=
    generateScheduleWithExtras (mkDate 2024 0 15 0) 400000 6.5 30 0 5000 true in
  let noExtras :=
    generateScheduleWithExtras (mkDate 2024 0 15 0) 400000 6.5 30 0 0 false in
  ((List.length withExtras <= List.length sameLumpSum)%nat /\
   reduce_sum PaymentScheduleItem.interestPayment withExtras <=
   reduce_sum PaymentScheduleItem.interestPayment sameLumpSum) /\
  ((List.length withExtras <= List.length noExtras)%nat /\
   reduce_sum PaymentScheduleItem.interestPayment withExtras <=
   reduce_sum PaymentScheduleItem.interestPayment noExtras).
Proof.
  apply (C4_extras_against_the_run_without_them
           (mkDate 2024 0 15 0) 400000 6.5 30 200 5000 true).
  - reflexivity.
  - discriminate.
  - reflexivity.
Defined.

(** C4 as stated fails when the baseline is the plain schedule of
    [generatePaymentSchedule], the one [calculateMortgageWithExtras]
    compares with.  For 7500000 at 50% over 50 years the plain schedule
    stops after its 600 rows with 7.03 unpaid, while the schedule with an
    extra 1e-13 a month, or 1e-25, keeps paying and has 601 rows; with
    1e-25 its rounded interest also adds up to more.  The outcome is the
    same for every [Math.pow] within three places of the correctly rounded
    power. *)
Lemma C4_counterexample :
  Forall
    (fun d =>
       let plain :=
         Binary64.generatePaymentSchedule (Binary64.Math_pow_off d)
           (mkDate 2024 0 15 0) 7500000%float 50%float 50 in
       let withExtras extraMonthlyPayment :=
         Binary64.generateScheduleWithExtras (Binary64.Math_pow_off d)
           (mkDate 2024 0 15 0) 7500000%float 50%float 50
           extraMonthlyPayment 0%float false in
       List.length plain = 600%nat /\
       List.length (withExtras 1e-13%float) = 601%nat /\
       List.length (withExtras 1e-25%float) = 601%nat /\
       PrimFloat.ltb
         (Binary64.reduce_sum Binary64.PaymentScheduleItem.interestPayment plain)
         (Binary64.reduce_sum Binary64.PaymentScheduleItem.interestPayment
            (withExtras 1e-25%float)) = true)
    [-3; -2; -1; 0; 1; 2; 3]%Z.
Proof.
  repeat (apply Forall_cons); [.. | apply Forall_nil];
    unfold Binary64.generatePaymentSchedule,
      Binary64.generateScheduleWithExtras, Binary64.calculateMonthlyPayment,
      Binary64.Math_pow_off;
    cbv beta zeta; rewrite !Math_pow_50_600; vm_compute;
    repeat split; reflexivity.
Qed.

(** ** The extras generator without extras *)







(** * Further properties of the engine *)

(** ** Row numbers and chart data *)

Lemma paymentLoop_numbers d r M n fuel : forall i rb cum,
  map PaymentScheduleItem.paymentNumber (paymentLoop d r M n fuel i rb cum) =
  map (fun j => (i + Z.of_nat j)%Z)
      (seq 0 (List.length (paymentLoop d r M n fuel i rb cum))).
Proof.
  induction fuel as [|fuel IH]; intros i rb cum.
  - reflexivity.
  - destruct (Z.le_gt_cases i n) as [Hi|Hi].
    + rewrite paymentLoop_S by assumption. simpl List.length.
      cbn [seq map]. f_equal.
      * cbn. lia.
      * rewrite IH. rewrite <- seq_shift, map_map.
        apply map_ext. intros j. lia.
    + rewrite paymentLoop_done by lia. reflexivity.
Qed.

Lemma extrasLoop_numbers d r M n e a en fuel : forall k rb cum,
  map PaymentScheduleItem.paymentNumber
      (extrasLoop d r M n e a en fuel k rb cum) =
  map (fun j => (k + Z.of_nat j)%Z)
      (seq 0 (List.length (extrasLoop d r M n e a en fuel k rb cum))).
Proof.
  induction fuel as [|fuel IH]; intros k rb cum.
  - reflexivity.
  - destruct (extrasLoop_cases d r M n e a en fuel k rb cum)
      as [[E _]|[Hb Hk]].
    + rewrite E. reflexivity.
    + rewrite extrasLoop_S by assumption. simpl List.length.
      cbn [seq map]. f_equal.
      * cbn. lia.
      * rewrite IH. rewrite <- seq_shift, map_map.
        apply map_ext. intros j. lia.
Qed.

Lemma map_from_numbered (s : list PaymentScheduleItem.t) : forall index,
  map PaymentScheduleItem.paymentNumber s =
    map (fun j => (index + 1 + Z.of_nat j)%Z) (seq 0 (List.length s)) ->
  map_from
    (fun payment index =>
       ChartDataPoint.mk (index + 1)
         (PaymentScheduleItem.principalPayment payment)
         (PaymentScheduleItem.interestPayment payment)
         (PaymentScheduleItem.remainingBalance payment)) index s =
  map (fun payment =>
         ChartDataPoint.mk
           (PaymentScheduleItem.paymentNumber payment)
           (PaymentScheduleItem.principalPayment payment)
           (PaymentScheduleItem.interestPayment payment)
           (PaymentScheduleItem.remainingBalance payment)) s.
Proof.
  induction s as [|x s IH]; intros index H.
  - reflexivity.
  - simpl in H. injection H as Hx Hs. cbn [map_from map]. f_equal.
    + rewrite Hx. f_equal. lia.
    + apply IH. rewrite Hs. rewrite <- seq_shift, map_map.
      apply map_ext. intros j. lia.
Qed.

(** X1.  Both generators number their rows 1, 2, 3, ... without gaps. *)
Theorem X1_rows_numbered_from_one
    (now : Date) (loanAmount annualInterestRate : Q) (loanTermYears : Z)
    (extraMonthlyPayment annualExtraPayment : Q) (enableAnnualPayment : bool) :
  let plain :=
    generatePaymentSchedule now loanAmount annualInterestRate loanTermYears in
  let withExtras :=
    generateScheduleWithExtras now loanAmount annualInterestRate loanTermYears
      extraMonthlyPayment annualExtraPayment enableAnnualPayment in
  map PaymentScheduleItem.paymentNumber plain =
    map Z.of_nat (seq 1 (List.length plain)) /\
  map PaymentScheduleItem.paymentNumber withExtras =
    map Z.of_nat (seq 1 (List.length withExtras)).
Proof.
  cbv zeta. unfold generatePaymentSchedule, generateScheduleWithExtras.
  split.
  - rewrite paymentLoop_numbers. rewrite <- seq_shift, map_map.
    apply map_ext. intros j. lia.
  - rewrite extrasLoop_numbers. rewrite <- seq_shift, map_map.
    apply map_ext. intros j. lia.
Qed.

(** X2.  On a schedule of either generator, [generateChartData] labels each
    point with the row's own payment number and copies the row's principal,
    interest and balance. *)
Theorem X2_chart_points_follow_rows
    (now : Date) (loanAmount annualInterestRate : Q) (loanTermYears : Z)
    (extraMonthlyPayment annualExtraPayment : Q) (enableAnnualPayment : bool) :
  let point payment :=
    ChartDataPoint.mk
      (PaymentScheduleItem.paymentNumber payment)
      (PaymentScheduleItem.principalPayment payment)
      (PaymentScheduleItem.interestPayment payment)
      (PaymentScheduleItem.remainingBalance payment) in
  let plain :=
    generatePaymentSchedule now loanAmount annualInterestRate loanTermYears in
  let withExtras :=
    generateScheduleWithExtras now loanAmount annualInterestRate loanTermYears
      extraMonthlyPayment annualExtraPayment enableAnnualPayment in
  generateChartData plain = map point plain /\
  generateChartData withExtras = map point withExtras.
Proof.
  cbv zeta. unfold generateChartData, Array_map.
  unfold generatePaymentSchedule, generateScheduleWithExtras.
  split; apply map_from_numbered.
  - rewrite paymentLoop_numbers. apply map_ext. intros j. lia.
  - rewrite extrasLoop_numbers. apply map_ext. intros j. lia.
Qed.

(** ** How long a schedule can be *)

(** X3.  For a whole number of years, and whatever the amount, the rate and
    the extras, [generatePaymentSchedule] returns exactly
    [loanTermYears * 12] rows (none if that is not positive), and
    [generateScheduleWithExtras] never returns more than twice that many. *)
Theorem X3_schedule_length_bounds
    (now : Date) (loanAmount annualInterestRate : Q) (loanTermYears : Z)
    (extraMonthlyPayment annualExtraPayment : Q) (enableAnnualPayment : bool) :
  Z.of_nat
    (List.length
       (generatePaymentSchedule now loanAmount annualInterestRate loanTermYears))
  = Z.max 0 (loanTermYears * 12) /\
  (Z.of_nat
     (List.length
        (generateScheduleWithExtras now loanAmount annualInterestRate
           loanTermYears extraMonthlyPayment annualExtraPayment
           enableAnnualPayment))
   <= Z.max 0 (loanTermYears * 12 * 2))%Z.
Proof.
  unfold generatePaymentSchedule, generateScheduleWithExtras. split.
  - destruct (Z.le_gt_cases (loanTermYears * 12) 0) as [H|H].
    + replace (Z.to_nat (loanTermYears * 12)) with O by lia.
      rewrite paymentLoop_O. simpl. lia.
    + rewrite paymentLoop_length by lia. lia.
  - pose proof (extrasLoop_length now (annualInterestRate / 100 / 12)
                  (calculateMonthlyPayment loanAmount annualInterestRate
                     loanTermYears)
                  (loanTermYears * 12) extraMonthlyPayment annualExtraPayment
                  enableAnnualPayment (Z.to_nat (loanTermYears * 12 * 2)) 1
                  loanAmount 0) as H.
    lia.
Qed.

(** X4.  The iteration bounds are not what ends the loops: with any larger
    bound both loops return the same rows, so each loop stops on its own
    condition. *)
Theorem X4_loops_end_on_their_condition
    (now : Date) (r M : Q) (n : Z) (e a : Q) (en : bool)
    (loanAmount : Q) (more : nat) :
  paymentLoop now r M n (Z.to_nat n + more) 1 loanAmount 0 =
  paymentLoop now r M n (Z.to_nat n) 1 loanAmount 0 /\
  extrasLoop now r M n e a en (Z.to_nat (n * 2) + more) 1 loanAmount 0 =
  extrasLoop now r M n e a en (Z.to_nat (n * 2)) 1 loanAmount 0.
Proof.
  split.
  - rewrite paymentLoop_fuel by lia.
    symmetry. apply paymentLoop_fuel. lia.
  - rewrite extrasLoop_fuel by lia.
    symmetry. apply extrasLoop_fuel. lia.
Qed.

(** X5.  A loan amount of at most one cent gives an empty schedule with
    extras, whatever the other inputs; [calculateMortgageWithExtras] then
    reports no interest, no payments, and the whole plain term as saved. *)
Theorem X5_cent_loan_has_no_rows_with_extras
    (now : Date) (inputs : MortgageInputs.t)
    (extraMonthlyPayment annualExtraPayment : Q) (enableAnnualPayment : bool) :
  MortgageInputs.loanAmount inputs <= 0.01 ->
  let result :=
    calculateMortgageWithExtras now inputs extraMonthlyPayment
      annualExtraPayment enableAnnualPayment in
  MortgageWithExtrasResults.paymentSchedule result = [] /\
  MortgageWithExtrasResults.totalInterest result = 0 /\
  MortgageWithExtrasResults.totalPayments result = 0 /\
  MortgageWithExtrasResults.timeSavedMonths result =
    Z.max 0 (MortgageInputs.loanTermYears inputs * 12).
Proof.
  intros H result.
  assert (E : generateScheduleWithExtras now
                (MortgageInputs.loanAmount inputs)
                (MortgageInputs.interestRate inputs)
                (MortgageInputs.loanTermYears inputs)
                extraMonthlyPayment annualExtraPayment enableAnnualPayment = []).
  { unfold generateScheduleWithExtras. now apply extrasLoop_paid. }
  subst result. unfold calculateMortgageWithExtras. cbv zeta.
  cbn [MortgageWithExtrasResults.paymentSchedule
       MortgageWithExtrasResults.totalInterest
       MortgageWithExtrasResults.totalPayments
       MortgageWithExtrasResults.timeSavedMonths].
  rewrite E. repeat split.
  unfold calculateMortgageDetails. cbv zeta.
  cbn [MortgageResults.paymentSchedule List.length].
  unfold generatePaymentSchedule.
  destruct (Z.le_gt_cases (MortgageInputs.loanTermYears inputs * 12) 0) as [Hn|Hn].
  - replace (Z.to_nat (MortgageInputs.loanTermYears inputs * 12)) with O by lia.
    rewrite paymentLoop_O. simpl. lia.
  - rewrite paymentLoop_length by lia. lia.
Qed.

Lemma X5_witness :
  let result :=
    calculateMortgageWithExtras (mkDate 2024 0 15 0)
      (MortgageInputs.loan 0.01 6 30) 100 0 false in
  MortgageWithExtrasResults.paymentSchedule result = [] /\
  MortgageWithExtrasResults.totalInterest result = 0 /\
  MortgageWithExtrasResults.totalPayments result = 0 /\
  MortgageWithExtrasResults.timeSavedMonths result = Z.max 0 (30 * 12).
Proof.
  apply (X5_cent_loan_has_no_rows_with_extras (mkDate 2024 0 15 0)
           (MortgageInputs.loan 0.01 6 30) 100 0 false).
  discriminate.
Defined.

(** ** Columns of a schedule *)

Lemma Math_round_sum (x y z : Q) :
  x + y == z ->
  Qabs (Math_round x + Math_round y - Math_round z) <= 1.
Proof.
  intros E.
  pose proof (Math_round_bounds x) as [X1 X2].
  pose proof (Math_round_bounds y) as [Y1 Y2].
  pose proof (Math_round_bounds z) as [Z1 Z2].
  unfold Math_round in *.
  set (a := Qfloor (x + (1 # 2))) in *.
  set (b := Qfloor (y + (1 # 2))) in *.
  set (c := Qfloor (z + (1 # 2))) in *.
  assert (E1 : inject_Z a + inject_Z b - inject_Z c == inject_Z (a + b - c)).
  { unfold Z.sub. rewrite !inject_Z_plus, inject_Z_opp. ring. }
  rewrite E1.
  assert (Hlo : (-1 <= a + b - c)%Z).
  { destruct (Z.le_gt_cases (-1) (a + b - c)) as [H|H]; [assumption|].
    assert (H2 : (a + b - c <= -2)%Z) by lia.
    rewrite Zle_Qle in H2. rewrite <- E1 in H2.
    change (inject_Z (-2)) with (-2 # 1) in H2. lra. }
  assert (Hhi : (a + b - c <= 1)%Z).
  { destruct (Z.le_gt_cases (a + b - c) 1) as [H|H]; [assumption|].
    assert (H2 : (2 <= a + b - c)%Z) by lia.
    rewrite Zle_Qle in H2. rewrite <- E1 in H2.
    change (inject_Z 2) with 2 in H2. lra. }
  apply Qabs_le_iff. rewrite Zle_Qle in Hlo, Hhi.
  change (inject_Z (-1)) with (-1 # 1) in Hlo.
  change (inject_Z 1) with 1 in Hhi. split; lra.
Qed.

(** Rounding the parts and rounding the whole disagree by at most a cent. *)
Lemma round2_sum (x y z : Q) :
  x + y == z -> Qabs (round2 x + round2 y - round2 z) <= 0.01.
Proof.
  intros E. unfold round2.
  assert (E' : x * 100 + y * 100 == z * 100) by (rewrite <- E; ring).
  pose proof (Math_round_sum _ _ _ E') as H.
  apply Qabs_le_iff in H. apply Qabs_le_iff. destruct H. qdiv. split; lra.
Qed.

Lemma paidTotal_split r M e a en k rb :
  paidPrincipal r M e a en k rb + rb * r == paidTotal r M e a en k rb.
Proof.
  unfold paidPrincipal, paidTotal. cbv zeta.
  destruct (gtb e 0), (lumpSumDue en a k);
    match goal with |- context [gtb ?x rb] => destruct (gtb x rb) end; ring.
Qed.

Lemma paymentLoop_rows_add_up d r M n fuel : forall i rb cum,
  Forall
    (fun row =>
       Qabs (PaymentScheduleItem.principalPayment row +
             PaymentScheduleItem.interestPayment row -
             PaymentScheduleItem.totalPayment row) <= 0.01)
    (paymentLoop d r M n fuel i rb cum).
Proof.
  induction fuel as [|fuel IH]; intros i rb cum; [constructor|].
  destruct (Z.le_gt_cases i n) as [Hi|Hi].
  - rewrite paymentLoop_S by assumption. constructor; [|apply IH].
    cbn [PaymentScheduleItem.principalPayment PaymentScheduleItem.interestPayment
         PaymentScheduleItem.totalPayment pushed].
    apply round2_sum. ring.
  - rewrite paymentLoop_done by lia. constructor.
Qed.

Lemma extrasLoop_rows_add_up d r M n e a en fuel : forall k rb cum,
  Forall
    (fun row =>
       Qabs (PaymentScheduleItem.principalPayment row +
             PaymentScheduleItem.interestPayment row -
             PaymentScheduleItem.totalPayment row) <= 0.01)
    (extrasLoop d r M n e a en fuel k rb cum).
Proof.
  induction fuel as [|fuel IH]; intros k rb cum; [constructor|].
  destruct (extrasLoop_cases d r M n e a en fuel k rb cum) as [[E _]|[Hb Hk]].
  - rewrite E. constructor.
  - rewrite extrasLoop_S by assumption. constructor; [|apply IH].
    cbn [PaymentScheduleItem.principalPayment PaymentScheduleItem.interestPayment
         PaymentScheduleItem.totalPayment pushed].
    apply round2_sum. apply paidTotal_split.
Qed.

(** X6.  In every row of either generator the rounded principal and the
    rounded interest add up to the rounded total payment within one cent. *)
Theorem X6_row_parts_add_up
    (now : Date) (loanAmount annualInterestRate : Q) (loanTermYears : Z)
    (extraMonthlyPayment annualExtraPayment : Q) (enableAnnualPayment : bool) :
  let balanced row :=
    Qabs (PaymentScheduleItem.principalPayment row +
          PaymentScheduleItem.interestPayment row -
          PaymentScheduleItem.totalPayment row) <= 0.01 in
  Forall balanced
    (generatePaymentSchedule now loanAmount annualInterestRate loanTermYears) /\
  Forall balanced
    (generateScheduleWithExtras now loanAmount annualInterestRate loanTermYears
       extraMonthlyPayment annualExtraPayment enableAnnualPayment).
Proof.
  cbv zeta. unfold generatePaymentSchedule, generateScheduleWithExtras.
  split.
  - apply paymentLoop_rows_add_up.
  - apply extrasLoop_rows_add_up.
Qed.

Section Columns.

Variables (d : Date) (r M : Q) (n : Z).
Hypothesis Hr : 0 <= r.

(** A balance whose interest the payment covers. *)
Let covered (rb : Q) : Prop := 0 <= rb /\ rb * r <= M.

Lemma carried_covered rb :
  covered rb -> covered (carried r M rb) /\ carried r M rb <= rb.
Proof using Hr.
  intros [H0 H1]. unfold covered, carried.
  destruct (ltb _ _) eqn:L.
  - repeat split; try lra. nra.
  - apply ltb_ge in L. repeat split; try lra. nra.
Qed.

Lemma paid_covered e a en k rb :
  covered rb ->
  covered (rb - paidPrincipal r M e a en k rb) /\
  rb - paidPrincipal r M e a en k rb <= rb.
Proof using Hr.
  intros [H0 H1]. unfold covered.
  pose proof (paidPrincipal_le r M e a en k rb) as Hle.
  assert (Hge : 0 <= paidPrincipal r M e a en k rb).
  { unfold paidPrincipal. cbv zeta.
    match goal with |- context [gtb ?x rb] => destruct (gtb x rb) end;
      [assumption|].
    destruct (lumpSumDue en a k) eqn:L; destruct (gtb e 0) eqn:G;
      try apply lumpSumDue_true in L; try apply gtb_gt in G; lra. }
  repeat split; try lra. nra.
Qed.

Lemma paymentLoop_columns fuel : forall i rb cum,
  covered rb ->
  Sorted (fun x y => y <= x)
    (round2 rb
     :: map PaymentScheduleItem.remainingBalance
          (paymentLoop d r M n fuel i rb cum)) /\
  Sorted Qle
    (round2 cum
     :: map PaymentScheduleItem.cumulativeInterest
          (paymentLoop d r M n fuel i rb cum)).
Proof using Hr.
  induction fuel as [|fuel IH]; intros i rb cum Hc.
  - split; repeat constructor.
  - destruct (Z.le_gt_cases i n) as [Hi|Hi].
    + rewrite paymentLoop_S by assumption.
      destruct (carried_covered rb Hc) as [Hc' Hle].
      destruct (IH (i + 1)%Z (carried r M rb) (cum + rb * r) Hc') as [S1 S2].
      cbn [map PaymentScheduleItem.remainingBalance
           PaymentScheduleItem.cumulativeInterest pushed].
      split; constructor; try assumption; constructor.
      * now apply round2_le.
      * apply round2_le. destruct Hc. nra.
    + rewrite paymentLoop_done by lia. split; repeat constructor.
Qed.

Lemma extrasLoop_columns e a en fuel : forall k rb cum,
  covered rb ->
  Sorted (fun x y => y <= x)
    (round2 rb
     :: map PaymentScheduleItem.remainingBalance
          (extrasLoop d r M n e a en fuel k rb cum)) /\
  Sorted Qle
    (round2 cum
     :: map PaymentScheduleItem.cumulativeInterest
          (extrasLoop d r M n e a en fuel k rb cum)).
Proof using Hr.
  induction fuel as [|fuel IH]; intros k rb cum Hc.
  - split; repeat constructor.
  - destruct (extrasLoop_cases d r M n e a en fuel k rb cum)
      as [[E _]|[Hb Hk]].
    + rewrite E. split; repeat constructor.
    + rewrite extrasLoop_S by assumption.
      destruct (paid_covered e a en k rb Hc) as [Hc' Hle].
      destruct (IH (k + 1)%Z (rb - paidPrincipal r M e a en k rb)
                  (cum + rb * r) Hc') as [S1 S2].
      cbn [map PaymentScheduleItem.remainingBalance
           PaymentScheduleItem.cumulativeInterest pushed].
      split; constructor; try assumption; constructor.
      * now apply round2_le.
      * apply round2_le. destruct Hc. nra.
Qed.

End Columns.

(** X7.  For a loan with positive principal, non-negative rate and a
    positive whole number of years, in the schedules of both generators the
    remaining balance never increases from row to row, starting from the
    (rounded) loan amount, and the cumulative interest never decreases,
    starting from zero. *)
Theorem X7_columns_monotone
    (now : Date) (loanAmount annualInterestRate : Q) (loanTermYears : Z)
    (extraMonthlyPayment annualExtraPayment : Q) (enableAnnualPayment : bool) :
  0 < loanAmount -> 0 <= annualInterestRate -> (0 < loanTermYears)%Z ->
  let plain :=
    generatePaymentSchedule now loanAmount annualInterestRate loanTermYears in
  let withExtras :=
    generateScheduleWithExtras now loanAmount annualInterestRate loanTermYears
      extraMonthlyPayment annualExtraPayment enableAnnualPayment in
  (Sorted (fun x y => y <= x)
     (round2 loanAmount :: map PaymentScheduleItem.remainingBalance plain) /\
   Sorted Qle
     (round2 0 :: map PaymentScheduleItem.cumulativeInterest plain)) /\
  (Sorted (fun x y => y <= x)
     (round2 loanAmount :: map PaymentScheduleItem.remainingBalance withExtras) /\
   Sorted Qle
     (round2 0 :: map PaymentScheduleItem.cumulativeInterest withExtras)).
Proof.
  intros HP Hrate Hyears plain withExtras. subst plain withExtras.
  unfold generatePaymentSchedule, generateScheduleWithExtras.
  pose proof (payment_owed _ _ _ HP Hrate Hyears) as Ho.
  pose proof (payment_pos _ _ _ HP Hrate Hyears) as Hm.
  pose proof (rate_monthly_nonneg _ Hrate) as Hr.
  pose proof (owed_interest _ Hr _ Hm _ _ Ho) as Hi.
  split.
  - apply paymentLoop_columns; [assumption|]. split; lra.
  - apply extrasLoop_columns; [assumption|]. split; lra.
Qed.

Lemma X7_witness :
  let plain := generatePaymentSchedule (mkDate 2024 0 15 0) 400000 6.5 30 in
  let withExtras :=
    generateScheduleWithExtras (mkDate 2024 0 15 0) 400000 6.5 30 200 5000 true in
  (Sorted (fun x y => y <= x)
     (round2 400000 :: map PaymentScheduleItem.remainingBalance plain) /\
   Sorted Qle
     (round2 0 :: map PaymentScheduleItem.cumulativeInterest plain)) /\
  (Sorted (fun x y => y <= x)
     (round2 400000 :: map PaymentScheduleItem.remainingBalance withExtras) /\
   Sorted Qle
     (round2 0 :: map PaymentScheduleItem.cumulativeInterest withExtras)).
Proof.
  apply (X7_columns_monotone (mkDate 2024 0 15 0) 400000 6.5 30 200 5000 true).
  - reflexivity.
  - discriminate.
  - reflexivity.
Defined.

(** ** Paying off *)

(** A schedule with extras that stopped short of both bounds stopped
    because at most a cent was left. *)
Lemma extrasLoop_last_paid d r M n e a en fuel :
  forall k rb cum rows final,
  extrasLoop d r M n e a en fuel k rb cum = rows ++ [final] ->
  (List.length (rows ++ [final]) < fuel)%nat ->
  (k + Z.of_nat (List.length (rows ++ [final])) <= n * 2)%Z ->
  PaymentScheduleItem.remainingBalance final <= 0.01.
Proof.
  induction fuel as [|fuel IH]; intros k rb cum rows final E Hf Hk.
  - simpl in Hf. lia.
  - destruct (extrasLoop_cases d r M n e a en fuel k rb cum)
      as [[E0 _]|[Hb Hk2]].
    + rewrite E0 in E. now destruct rows.
    + rewrite extrasLoop_S in E by assumption.
      destruct rows as [|y rows].
      * simpl in E. injection E as Ex Er.
        rewrite length_app in Hf, Hk. simpl in Hf, Hk.
        destruct fuel as [|fuel]; [lia|].
        destruct (extrasLoop_cases d r M n e a en fuel (k + 1)
                    (rb - paidPrincipal r M e a en k rb) (cum + rb * r))
          as [[_ [Hp|Hc]]|[Hb' _]].
        -- rewrite <- Ex. cbn [PaymentScheduleItem.remainingBalance pushed].
           apply round2_le in Hp.
           assert (E1 : round2 0.01 == 0.01) by apply (round2_cents 1).
           lra.
        -- lia.
        -- rewrite extrasLoop_S in Er by (try assumption; lia). discriminate.
      * simpl in E. injection E as Ex Er.
        rewrite length_app in Hf, Hk. simpl in Hf, Hk.
        apply (IH _ _ _ _ _ Er); rewrite length_app; simpl; lia.
Qed.

(** X9.  For a loan with positive principal, non-negative rate and a whole
    number of years, a schedule with extras that has fewer than
    [2 * loanTermYears * 12] rows ended because at most one cent was left:
    its last row shows a remaining balance between zero and one cent.  Only
    a schedule that runs into the doubled-term cap can end on more. *)
Theorem X9_extras_schedule_ends_paid_or_capped
    (now : Date) (loanAmount annualInterestRate : Q) (loanTermYears : Z)
    (extraMonthlyPayment annualExtraPayment : Q) (enableAnnualPayment : bool)
    (rows : list PaymentScheduleItem.t) (final : PaymentScheduleItem.t) :
  0 < loanAmount -> 0 <= annualInterestRate ->
  generateScheduleWithExtras now loanAmount annualInterestRate loanTermYears
    extraMonthlyPayment annualExtraPayment enableAnnualPayment
    = rows ++ [final] ->
  (Z.of_nat (List.length (rows ++ [final])) < loanTermYears * 12 * 2)%Z ->
  0 <= PaymentScheduleItem.remainingBalance final <= 0.01.
Proof.
  intros _ _ E Hlen.
  unfold generateScheduleWithExtras in E. split.
  - pose proof (extrasLoop_balance_nonneg now
                  (annualInterestRate / 100 / 12)
                  (calculateMonthlyPayment loanAmount annualInterestRate
                     loanTermYears)
                  (loanTermYears * 12) extraMonthlyPayment annualExtraPayment
                  enableAnnualPayment (Z.to_nat (loanTermYears * 12 * 2)) 1
                  loanAmount 0) as Hnn.
    rewrite E in Hnn. apply Forall_app in Hnn. destruct Hnn as [_ Hf].
    now inversion Hf.
  - apply (extrasLoop_last_paid _ _ _ _ _ _ _ _ _ _ _ _ _ E); lia.
Qed.

Lemma X9_witness :
  exists rows final,
    generateScheduleWithExtras (mkDate 2024 0 15 0) 1006 0 1 59.88 0 false
      = rows ++ [final] /\
    0 <= PaymentScheduleItem.remainingBalance final <= 0.01.
Proof.
  eexists [_; _; _; _; _; _], _.
  match goal with |- ?E /\ _ => assert (HE : E) end.
  { rewrite generateScheduleWithExtras_run. vm_compute. reflexivity. }
  split; [exact HE|].
  eapply (X9_extras_schedule_ends_paid_or_capped
            (mkDate 2024 0 15 0) 1006 0 1 59.88 0 false).
  - reflexivity.
  - discriminate.
  - exact HE.
  - rewrite length_app. simpl. lia.
Defined.

(** X25.  Paying more never costs.  For a loan with positive principal,
    non-negative rate and a positive whole number of years, raising the
    monthly extra, the annual lump sum, or both, gives a schedule with no
    more rows and no more (rounded) interest in total. *)
Theorem X25_larger_extras_never_cost
    (now : Date) (loanAmount annualInterestRate : Q) (loanTermYears : Z)
    (extraMonthlyPayment extraMonthlyPayment' : Q)
    (annualExtraPayment annualExtraPayment' : Q) (enableAnnualPayment : bool) :
  0 < loanAmount -> 0 <= annualInterestRate -> (0 < loanTermYears)%Z ->
  extraMonthlyPayment <= extraMonthlyPayment' ->
  annualExtraPayment <= annualExtraPayment' ->
  let smaller :=
    generateScheduleWithExtras now loanAmount annualInterestRate loanTermYears
      extraMonthlyPayment annualExtraPayment enableAnnualPayment in
  let larger :=
    generateScheduleWithExtras now loanAmount annualInterestRate loanTermYears
      extraMonthlyPayment' annualExtraPayment' enableAnnualPayment in
  (List.length larger <= List.length smaller)%nat /\
  reduce_sum PaymentScheduleItem.interestPayment larger <=
  reduce_sum PaymentScheduleItem.interestPayment smaller.
Proof.
  intros HP Hrate _ He Ha smaller larger. subst smaller larger.
  unfold generateScheduleWithExtras.
  pose proof (rate_monthly_nonneg _ Hrate) as Hr.
  apply more_extras_never_cost; try assumption; try lra.
  intros j. unfold extraPrincipal.
  assert (H1 : (if gtb extraMonthlyPayment 0 then extraMonthlyPayment else 0)
               <= (if gtb extraMonthlyPayment' 0 then extraMonthlyPayment'
                   else 0)).
  { destruct (gtb extraMonthlyPayment 0) eqn:G;
      destruct (gtb extraMonthlyPayment' 0) eqn:G';
      try apply gtb_gt in G; try apply gtb_le in G;
      try apply gtb_gt in G'; try apply gtb_le in G'; lra. }
  assert (H2 : (if lumpSumDue enableAnnualPayment annualExtraPayment j
                then annualExtraPayment else 0)
               <= (if lumpSumDue enableAnnualPayment annualExtraPayment' j
                   then annualExtraPayment' else 0)).
  { destruct (lumpSumDue enableAnnualPayment annualExtraPayment j) eqn:L;
      destruct (lumpSumDue enableAnnualPayment annualExtraPayment' j) eqn:L'.
    - assumption.
    - apply lumpSumDue_true in L. destruct L as (Hen & Hpos & Hrem & Hk).
      assert (L2 : lumpSumDue enableAnnualPayment annualExtraPayment' j = true)
        by (apply lumpSumDue_true; repeat split; try assumption; lra).
      congruence.
    - apply lumpSumDue_true in L'. lra.
    - lra. }
  lra.
Qed.

Lemma X25_witness :
  let smaller :=
    generateScheduleWithExtras (mkDate 2024 0 15 0) 400000 6.5 30 100 0 true in
  let larger :=
    generateScheduleWithExtras (mkDate 2024 0 15 0) 400000 6.5 30
      200 5000 true in
  (List.length larger <= List.length smaller)%nat /\
  reduce_sum PaymentScheduleItem.interestPayment larger <=
  reduce_sum PaymentScheduleItem.interestPayment smaller.
Proof.
  apply (X25_larger_extras_never_cost (mkDate 2024 0 15 0) 400000 6.5 30
           100 200 0 5000 true).
  - reflexivity.
  - discriminate.
  - reflexivity.
  - discriminate.
  - discriminate.
Defined.

(** ** The payment formula and the aggregate *)

Lemma reduce_sum_zero {A : Type} (f : A -> Q) (a : list A) :
  Forall (fun x => f x == 0) a -> reduce_sum f a == 0.
Proof.
  induction 1 as [|x a Hx _ IH].
  - reflexivity.
  - rewrite reduce_sum_cons, Hx, IH. ring.
Qed.

(** X12.  For a positive loan amount at an annual rate of zero
    [calculateMortgageDetails] reports no interest at all. *)
Theorem X12_zero_rate_no_interest
    (now : Date) (inputs : MortgageInputs.t) :
  0 < MortgageInputs.loanAmount inputs ->
  MortgageInputs.interestRate inputs == 0 ->
  MortgageResults.totalInterest (calculateMortgageDetails now inputs) == 0.
Proof.
  intros _ H0.
  unfold calculateMortgageDetails. cbv zeta.
  cbn [MortgageResults.totalInterest].
  apply reduce_sum_zero. unfold generatePaymentSchedule.
  eapply Forall_impl; [|apply paymentLoop_zero_rate].
  - intros row [Hi _]. exact Hi.
  - rewrite H0. reflexivity.
Qed.

Lemma X12_witness :
  MortgageResults.totalInterest
    (calculateMortgageDetails (mkDate 2024 0 15 0)
       (MortgageInputs.loan 100000 0 10)) == 0.
Proof.
  apply (X12_zero_rate_no_interest (mkDate 2024 0 15 0)
           (MortgageInputs.loan 100000 0 10)).
  - reflexivity.
  - reflexivity.
Defined.

(** X13.  For a loan with positive principal, non-negative rate and a
    positive whole number of years, and with non-negative (or absent) tax,
    insurance, PMI and HOA amounts, the monthly payment of
    [calculateMortgageDetails] is at least the principal-and-interest
    amount, and the total interest is not negative. *)
Theorem X13_aggregate_totals
    (now : Date) (inputs : MortgageInputs.t) :
  0 < MortgageInputs.loanAmount inputs ->
  0 <= MortgageInputs.interestRate inputs ->
  (0 < MortgageInputs.loanTermYears inputs)%Z ->
  0 <= orZero (MortgageInputs.propertyTax inputs) ->
  0 <= orZero (MortgageInputs.homeInsurance inputs) ->
  0 <= orZero (MortgageInputs.pmi inputs) ->
  0 <= orZero (MortgageInputs.hoaFees inputs) ->
  let result := calculateMortgageDetails now inputs in
  MortgageResults.monthlyPrincipalAndInterest result <=
    MortgageResults.monthlyPayment result /\
  0 <= MortgageResults.totalInterest result.
Proof.
  intros HP Hrate _ Ht Hi Hp Hh result. subst result.
  pose proof (rate_monthly_nonneg _ Hrate) as Hr.
  unfold calculateMortgageDetails. cbv zeta.
  cbn [MortgageResults.totalInterest MortgageResults.monthlyPrincipalAndInterest
       MortgageResults.monthlyPayment].
  split; [qdiv; lra|].
  apply reduce_sum_nonneg. unfold generatePaymentSchedule.
  apply paymentLoop_interest_nonneg; [exact Hr | lra].
Qed.

Lemma X13_witness :
  let result :=
    calculateMortgageDetails (mkDate 2024 0 15 0)
      (MortgageInputs.mk 400000 6.5 30 (Some 4800) (Some 1200) None (Some 600)) in
  MortgageResults.monthlyPrincipalAndInterest result <=
    MortgageResults.monthlyPayment result /\
  0 <= MortgageResults.totalInterest result.
Proof.
  apply (X13_aggregate_totals (mkDate 2024 0 15 0)
           (MortgageInputs.mk 400000 6.5 30 (Some 4800) (Some 1200) None
              (Some 600))).
  - reflexivity.
  - discriminate.
  - reflexivity.
  - discriminate.
  - discriminate.
  - discriminate.
  - discriminate.
Defined.

(** ** Validation of mortgage inputs *)

Lemma Qle_bool_false (x y : Q) : Qle_bool x y = false <-> y < x.
Proof.
  split.
  - intros H. apply Qnot_le_lt. intros C. apply Qle_bool_iff in C. congruence.
  - intros H. destruct (Qle_bool x y) eqn:E; [|reflexivity].
    apply Qle_bool_iff in E. lra.
Qed.

Lemma pushIf_length (cond : bool) (msg : string) (errors : list string) :
  List.length (pushIf cond msg errors) =
  (List.length errors + if cond then 1 else 0)%nat.
Proof.
  unfold pushIf. destruct cond.
  - rewrite length_app. reflexivity.
  - lia.
Qed.

Lemma validateMortgageInputs_nil (inputs : MortgageInputs.t) :
  validateMortgageInputs inputs = [] <->
  0 < MortgageInputs.loanAmount inputs <= 10000000 /\
  0 <= MortgageInputs.interestRate inputs <= 50 /\
  (0 < MortgageInputs.loanTermYears inputs <= 50)%Z.
Proof.
  unfold validateMortgageInputs. cbv zeta.
  rewrite !pushIf_nil, !ltb_ge, !gtb_le, Qle_bool_false.
  rewrite Z.leb_gt, Z.gtb_ltb, Z.ltb_ge.
  intuition.
Qed.

(** X14.  [validateMortgageInputs] reports nothing exactly when the loan
    amount is in (0, 10000000], the rate in [0, 50] and the term in
    (0, 50] years. *)
Theorem X14_mortgage_inputs_accepted (inputs : MortgageInputs.t) :
  validateMortgageInputs inputs = [] <->
  0 < MortgageInputs.loanAmount inputs <= 10000000 /\
  0 <= MortgageInputs.interestRate inputs <= 50 /\
  (0 < MortgageInputs.loanTermYears inputs <= 50)%Z.
Proof.
  apply validateMortgageInputs_nil.
Qed.

(** X15.  The two rules on each field exclude each other, so
    [validateMortgageInputs] never reports more than three problems,
    although it has six rules. *)
Theorem X15_mortgage_inputs_at_most_three_errors (inputs : MortgageInputs.t) :
  (List.length (validateMortgageInputs inputs) <= 3)%nat.
Proof.
  unfold validateMortgageInputs. cbv zeta.
  rewrite !pushIf_length. cbn [List.length].
  destruct (Qle_bool (MortgageInputs.loanAmount inputs) 0) eqn:A1;
    destruct (gtb (MortgageInputs.loanAmount inputs) 10000000) eqn:A2;
    try (apply Qle_bool_iff in A1; apply gtb_gt in A2; lra);
    destruct (ltb (MortgageInputs.interestRate inputs) 0) eqn:R1;
    destruct (gtb (MortgageInputs.interestRate inputs) 50) eqn:R2;
    try (apply ltb_lt in R1; apply gtb_gt in R2; lra);
    destruct (MortgageInputs.loanTermYears inputs <=? 0)%Z eqn:Y1;
    destruct (MortgageInputs.loanTermYears inputs >? 50)%Z eqn:Y2;
    try (apply Z.leb_le in Y1; rewrite Z.gtb_ltb in Y2; apply Z.ltb_lt in Y2;
         lia);
    simpl; lia.
Qed.

(** ** The refinance comparison *)

(** X16.  When the monthly savings are positive, the break-even time is the
    least whole number of months whose savings cover the closing costs. *)
Theorem X16_break_even_is_least_covering_month
    (now : Date) (inputs : RefinanceInputs.t) :
  let result := calculateRefinanceComparison now inputs in
  let savings := RefinanceResults.monthlySavings result in
  let months := RefinanceResults.breakEvenMonths result in
  0 < savings ->
  RefinanceInputs.closingCosts inputs <= months * savings /\
  (months - 1) * savings < RefinanceInputs.closingCosts inputs.
Proof.
  intros result savings months Hs.
  assert (E : months =
              if gtb savings 0
              then Math_ceil (RefinanceInputs.closingCosts inputs / savings)
              else 999) by reflexivity.
  assert (G : gtb savings 0 = true) by now apply gtb_gt.
  rewrite G in E. rewrite E. unfold Math_ceil.
  set (x := RefinanceInputs.closingCosts inputs / savings).
  assert (Ex : x * savings == RefinanceInputs.closingCosts inputs).
  { unfold x. field. lra. }
  pose proof (Qle_ceiling x) as H1.
  pose proof (Qceiling_lt x) as H2.
  unfold Z.sub in H2. rewrite inject_Z_plus, inject_Z_opp in H2.
  change (inject_Z 1) with 1 in H2.
  rewrite <- Ex. split; nra.
Qed.

Lemma X16_witness :
  let result :=
    calculateRefinanceComparison (mkDate 2024 0 15 0)
      (RefinanceInputs.mk 120000 0 10 120 120000 0 20 5000 0 0 0 false) in
  5000 <= RefinanceResults.breakEvenMonths result *
          RefinanceResults.monthlySavings result /\
  (RefinanceResults.breakEvenMonths result - 1) *
    RefinanceResults.monthlySavings result < 5000.
Proof.
  apply (X16_break_even_is_least_covering_month (mkDate 2024 0 15 0)
           (RefinanceInputs.mk 120000 0 10 120 120000 0 20 5000 0 0 0 false)).
  lazy. reflexivity.
Defined.

(** ** The pages *)

(** X19.  The refinance page recommends refinancing only when the monthly
    savings are positive, the total savings are positive, and 59 months of
    savings cover the closing costs. *)
Theorem X19_recommendation_needs_savings
    (now : Date) (inputs : RefinanceInputs.t) :
  let results := calculateRefinanceComparison now inputs in
  RefinancePage.isRefinanceWorthwhile (Some results) = true ->
  0 < RefinanceResults.monthlySavings results /\
  0 < RefinanceResults.totalSavings results /\
  RefinanceInputs.closingCosts inputs <=
    59 * RefinanceResults.monthlySavings results.
Proof.
  intros results H. unfold RefinancePage.isRefinanceWorthwhile in H.
  apply andb_true_iff in H. destruct H as [Ht Hb].
  apply gtb_gt in Ht. apply ltb_lt in Hb.
  assert (E : RefinanceResults.breakEvenMonths results =
              if gtb (RefinanceResults.monthlySavings results) 0
              then Math_ceil (RefinanceInputs.closingCosts inputs /
                              RefinanceResults.monthlySavings results)
              else 999) by reflexivity.
  destruct (gtb (RefinanceResults.monthlySavings results) 0) eqn:G.
  - apply gtb_gt in G. split; [assumption|]. split; [assumption|].
    rewrite E in Hb. unfold Math_ceil in Hb.
    set (s := RefinanceResults.monthlySavings results) in *.
    set (x := RefinanceInputs.closingCosts inputs / s) in *.
    assert (Ex : x * s == RefinanceInputs.closingCosts inputs).
    { unfold x. field. lra. }
    pose proof (Qle_ceiling x) as H1.
    assert (Hz : (Qceiling x <= 59)%Z).
    { change 60 with (inject_Z 60) in Hb. rewrite <- Zlt_Qlt in Hb. lia. }
    rewrite Zle_Qle in Hz. change (inject_Z 59) with 59 in Hz.
    rewrite <- Ex. nra.
  - rewrite E in Hb. exfalso. revert Hb. discriminate.
Qed.

Lemma X19_witness :
  let results :=
    calculateRefinanceComparison (mkDate 2024 0 15 0)
      (RefinanceInputs.mk 120000 12 1 12 120000 0 1 5000 0 0 0 false) in
  0 < RefinanceResults.monthlySavings results /\
  0 < RefinanceResults.totalSavings results /\
  5000 <= 59 * RefinanceResults.monthlySavings results.
Proof.
  apply (X19_recommendation_needs_savings (mkDate 2024 0 15 0)
           (RefinanceInputs.mk 120000 12 1 12 120000 0 1 5000 0 0 0 false)).
  unfold RefinancePage.isRefinanceWorthwhile.
  apply andb_true_iff. split.
  - apply gtb_gt.
    assert (H : 5000 < RefinanceResults.totalInterestSavings
                         (calculateRefinanceComparison (mkDate 2024 0 15 0)
                            (RefinanceInputs.mk 120000 12 1 12 120000 0 1
                               5000 0 0 0 false))).
    { unfold calculateRefinanceComparison. cbv zeta.
      cbn [RefinanceResults.totalInterestSavings].
      unfold calculateMortgageWithExtras, calculateMortgageDetails. cbv zeta.
      cbn [MortgageResults.totalInterest MortgageWithExtrasResults.totalInterest
           MortgageInputs.loanAmount MortgageInputs.interestRate
           MortgageInputs.loanTermYears MortgageInputs.loan].
      rewrite generatePaymentSchedule_run, generateScheduleWithExtras_run.
      vm_compute. reflexivity. }
    assert (E : RefinanceResults.totalSavings
                  (calculateRefinanceComparison (mkDate 2024 0 15 0)
                     (RefinanceInputs.mk 120000 12 1 12 120000 0 1
                        5000 0 0 0 false)) =
                RefinanceResults.totalInterestSavings
                  (calculateRefinanceComparison (mkDate 2024 0 15 0)
                     (RefinanceInputs.mk 120000 12 1 12 120000 0 1
                        5000 0 0 0 false)) - 5000) by reflexivity.
    rewrite E. lra.
  - lazy. reflexivity.
Defined.

(** X20.  The home page shows results exactly when the loan amount is in
    (0, 10000000], the rate in [0, 50] and the term in (0, 50] years; the
    results shown are then those of [calculateMortgageDetails], and
    otherwise the errors shown are the non-empty list of
    [validateMortgageInputs]. *)
Theorem X20_home_page_results (now : Date) (inputs : MortgageInputs.t) :
  let errors := fst (HomePage.calculateMortgage now inputs) in
  let results := snd (HomePage.calculateMortgage now inputs) in
  errors = validateMortgageInputs inputs /\
  (results = None <-> errors <> []) /\
  (results = Some (calculateMortgageDetails now inputs) <->
   0 < MortgageInputs.loanAmount inputs <= 10000000 /\
   0 <= MortgageInputs.interestRate inputs <= 50 /\
   (0 < MortgageInputs.loanTermYears inputs <= 50)%Z).
Proof.
  intros errors results. subst errors results.
  rewrite <- validateMortgageInputs_nil.
  unfold HomePage.calculateMortgage. cbv zeta.
  destruct (validateMortgageInputs inputs) as [|msg rest] eqn:V.
  - cbn [List.length Z.of_nat Z.ltb Z.compare fst snd].
    split; [reflexivity|].
    split; [split; [discriminate | congruence]|].
    split; reflexivity.
  - assert (L : (0 <? Z.of_nat (List.length (msg :: rest)))%Z = true).
    { apply Z.ltb_lt. simpl List.length. lia. }
    rewrite L. cbn [fst snd].
    split; [reflexivity|].
    split; [split; [discriminate | reflexivity]|].
    split; discriminate.
Qed.

Lemma filter_from_In {A : Type} (f : A -> Z -> bool) (a : list A) :
  forall index j x,
  nth_error a j = Some x -> f x (index + Z.of_nat j)%Z = true ->
  In x (filter_from f index a).
Proof.
  induction a as [|y a IH]; intros index j x Hn Hf.
  - destruct j; discriminate.
  - destruct j as [|j].
    + injection Hn as ->. cbn [filter_from].
      replace (index + Z.of_nat 0)%Z with index in Hf by lia.
      rewrite Hf. now left.
    + cbn [filter_from]. cbn [nth_error] in Hn.
      assert (In x (filter_from f (index + 1) a)).
      { apply (IH _ j); [assumption|].
        replace (index + 1 + Z.of_nat j)%Z with (index + Z.of_nat (S j))%Z
          by lia.
        assumption. }
      destruct (f y index); [now right | assumption].
Qed.

(** X21.  Both chart samplings of the home page keep the first and the last
    point of the schedule, whatever its length. *)
Theorem X21_chart_samples_keep_both_ends
    (paymentSchedule : list PaymentScheduleItem.t) (point : ChartDataPoint.t) :
  let data := generateChartData paymentSchedule in
  nth_error data 0 = Some point \/
  nth_error data (List.length data - 1) = Some point ->
  In point (HomePage.chartSample paymentSchedule) /\
  In point (HomePage.balanceSample paymentSchedule).
Proof.
  intros data H.
  assert (G : forall rate,
            In point (HomePage.sampled data rate)).
  { intros rate. unfold HomePage.sampled, Array_filter.
    destruct H as [H|H].
    - apply (filter_from_In _ _ 0%Z O point H).
      reflexivity.
    - apply (filter_from_In _ _ 0%Z _ point H).
      assert (L : (List.length data - 1 < List.length data)%nat).
      { apply nth_error_Some. congruence. }
      apply orb_true_iff. right. apply Z.eqb_eq. lia. }
  split; apply G.
Qed.

Lemma X21_witness :
  let paymentSchedule :=
    [PaymentScheduleItem.mk 1 "2024-02-15" 100 0 100 100 0;
     PaymentScheduleItem.mk 2 "2024-03-15" 100 0 100 0 0] in
  let point := ChartDataPoint.mk 2 100 0 0 in
  In point (HomePage.chartSample paymentSchedule) /\
  In point (HomePage.balanceSample paymentSchedule).
Proof.
  apply (X21_chart_samples_keep_both_ends
           [PaymentScheduleItem.mk 1 "2024-02-15" 100 0 100 100 0;
            PaymentScheduleItem.mk 2 "2024-03-15" 100 0 100 0 0]
           (ChartDataPoint.mk 2 100 0 0)).
  right. reflexivity.
Defined.

(** ** The earlier declarations *)

(** X23.  The earlier [calculateRefinanceComparison] differs from the later
    one: it computes the new loan from [newLoanAmount] alone, adds the
    cash-out to [totalSavings], and divides the closing costs by
    [max(monthlySavings, 1)], so for non-negative closing costs its
    break-even time lies between zero and the closing costs and equals them
    whenever the monthly savings are at most 1. *)
Theorem X23_earlier_comparison
    (now : Date) (inputs : RefinanceInputs.t) :
  0 <= RefinanceInputs.closingCosts inputs ->
  let result := Earlier.calculateRefinanceComparison now inputs in
  Earlier.RefinanceResults.newMortgage result =
    calculateMortgageDetails now
      (MortgageInputs.loan (RefinanceInputs.newLoanAmount inputs)
         (RefinanceInputs.newInterestRate inputs)
         (RefinanceInputs.newLoanTermYears inputs)) /\
  Earlier.RefinanceResults.totalSavings result =
    Earlier.RefinanceResults.totalInterestSavings result -
    RefinanceInputs.closingCosts inputs + RefinanceInputs.cashOut inputs /\
  0 <= Earlier.RefinanceResults.breakEvenMonths result
    <= RefinanceInputs.closingCosts inputs /\
  (Earlier.RefinanceResults.monthlySavings result <= 1 ->
   Earlier.RefinanceResults.breakEvenMonths result ==
   RefinanceInputs.closingCosts inputs).
Proof.
  intros Hc result.
  split; [reflexivity|]. split; [reflexivity|].
  assert (E : Earlier.RefinanceResults.breakEvenMonths result =
              RefinanceInputs.closingCosts inputs /
              Math_max (Earlier.RefinanceResults.monthlySavings result) 1)
    by reflexivity.
  rewrite E.
  set (s := Earlier.RefinanceResults.monthlySavings result).
  set (c := RefinanceInputs.closingCosts inputs) in *.
  assert (Hm : 1 <= Math_max s 1).
  { unfold Math_max. destruct (ltb s 1) eqn:L; [lra|].
    now apply ltb_ge in L. }
  assert (Ex : c / Math_max s 1 * Math_max s 1 == c) by (field; lra).
  set (m := Math_max s 1) in *. set (q := c / m) in *.
  assert (Hq : 0 <= q).
  { unfold q. apply Qle_shift_div_l; lra. }
  split; [split; [assumption | nra]|].
  intros Hs. subst q m. unfold Math_max.
  destruct (ltb s 1) eqn:L.
  - field.
  - apply ltb_ge in L. assert (Es : s == 1) by lra. rewrite Es. field.
Qed.

Lemma X23_witness :
  let inputs :=
    RefinanceInputs.mk 120000 0 20 240 120000 0 10 5000 20000 0 0 false in
  let result :=
    Earlier.calculateRefinanceComparison (mkDate 2024 0 15 0) inputs in
  Earlier.RefinanceResults.newMortgage result =
    calculateMortgageDetails (mkDate 2024 0 15 0)
      (MortgageInputs.loan 120000 0 10) /\
  Earlier.RefinanceResults.totalSavings result =
    Earlier.RefinanceResults.totalInterestSavings result - 5000 + 20000 /\
  0 <= Earlier.RefinanceResults.breakEvenMonths result <= 5000 /\
  (Earlier.RefinanceResults.monthlySavings result <= 1 ->
   Earlier.RefinanceResults.breakEvenMonths result == 5000).
Proof.
  apply (X23_earlier_comparison (mkDate 2024 0 15 0)
           (RefinanceInputs.mk 120000 0 20 240 120000 0 10 5000 20000 0 0 false)).
  discriminate.
Defined.

Lemma earlier_validateRefinanceInputs_nil (inputs : RefinanceInputs.t) :
  Earlier.validateRefinanceInputs inputs = [] <->
  (0 < RefinanceInputs.currentLoanAmount inputs /\
   0 <= RefinanceInputs.currentInterestRate inputs /\
   (0 < RefinanceInputs.currentRemainingYears inputs)%Z) /\
  (0 < RefinanceInputs.newLoanAmount inputs /\
   0 <= RefinanceInputs.newInterestRate inputs /\
   (0 < RefinanceInputs.newLoanTermYears inputs)%Z) /\
  0 <= RefinanceInputs.extraMonthlyPayment inputs /\
  0 <= RefinanceInputs.annualExtraPayment inputs /\
  0 <= RefinanceInputs.closingCosts inputs.
Proof.
  unfold Earlier.validateRefinanceInputs. cbv zeta.
  rewrite !pushIf_nil, !ltb_ge, !Qle_bool_false, !Z.leb_gt.
  intuition.
Qed.

(** X24.  The later [validateRefinanceInputs] is the stricter of the two:
    whatever it accepts the earlier declaration accepts as well, and the
    rates and terms it accepts are at most 50. *)
Theorem X24_later_validation_is_stricter (inputs : RefinanceInputs.t) :
  validateRefinanceInputs inputs = [] ->
  Earlier.validateRefinanceInputs inputs = [] /\
  RefinanceInputs.currentInterestRate inputs <= 50 /\
  RefinanceInputs.newInterestRate inputs <= 50 /\
  (RefinanceInputs.currentRemainingYears inputs <= 50)%Z /\
  (RefinanceInputs.newLoanTermYears inputs <= 50)%Z.
Proof.
  intros V. apply validateRefinanceInputs_nil in V.
  rewrite earlier_validateRefinanceInputs_nil. intuition.
Qed.

Lemma X24_witness :
  let inputs :=
    RefinanceInputs.mk 350000 7.5 25 300 350000 6 30 5000 0 100 0 false in
  Earlier.validateRefinanceInputs inputs = [] /\
  RefinanceInputs.currentInterestRate inputs <= 50 /\
  RefinanceInputs.newInterestRate inputs <= 50 /\
  (RefinanceInputs.currentRemainingYears inputs <= 50)%Z /\
  (RefinanceInputs.newLoanTermYears inputs <= 50)%Z.
Proof.
  apply (X24_later_validation_is_stricter
           (RefinanceInputs.mk 350000 7.5 25 300 350000 6 30 5000 0 100 0 false)).
  vm_compute. reflexivity.
Defined.
